(** * The dialogue engine of the salon receptionist ([core_logic.py])

    A shallow embedding of the state extractor, the quick-path classifier,
    the rule responder, the consistency filter, the speech sanitiser and the
    orchestrator [generate_reply], followed by the properties the
    specification states about them.

    Python values are modelled as the code meets them:
    - a [str] is the list of its Unicode code points ([pystr]); literals are
      written as UTF-8 text and decoded by [py];
    - the conversation state is whatever [json.loads] produced: any JSON
      value ([pyval]), a [dict] being a finite map from keys to values;
    - a call that can raise returns a [result];
    - the language model is an oracle from prompts to outcomes. *)

From stdpp Require Import base option list gmap.
From Stdlib Require Import NArith ZArith Lia String Ascii DecimalString.

Set Warnings "-register-all".
Local Open Scope N_scope.

(* ================================================================== *)
(** ** Strings *)

Definition pystr := list N.

Fixpoint bytes_of (s : string) : list N :=
  match s with
  | EmptyString => []
  | String a r => N_of_ascii a :: bytes_of r
  end.

(** UTF-8 decoding of a literal (well-formed input only). *)
Fixpoint utf8_decode (bs : list N) : pystr :=
  match bs with
  | [] => []
  | b0 :: r0 =>
    if b0 <? 128 then b0 :: utf8_decode r0
    else match r0 with
    | [] => []
    | b1 :: r1 =>
      if b0 <? 224 then (b0 mod 32 * 64 + b1 mod 64) :: utf8_decode r1
      else match r1 with
      | [] => []
      | b2 :: r2 =>
        if b0 <? 240
        then (b0 mod 16 * 4096 + b1 mod 64 * 64 + b2 mod 64) :: utf8_decode r2
        else match r2 with
        | [] => []
        | b3 :: r3 =>
          (b0 mod 8 * 262144 + b1 mod 64 * 4096 + b2 mod 64 * 64 + b3 mod 64)
            :: utf8_decode r3
        end
      end
    end
  end.

Definition py (s : string) : pystr := utf8_decode (bytes_of s).

(** Truth value of a string: [if text:]. *)
Definition nonempty (s : pystr) : bool :=
  match s with [] => false | _ :: _ => true end.

(** [u.startswith(kw)] and [kw in u]. *)
Fixpoint starts_with (kw u : pystr) : bool :=
  match kw, u with
  | [], _ => true
  | _ :: _, [] => false
  | k :: kw', c :: u' => (k =? c) && starts_with kw' u'
  end.

Fixpoint contains (kw u : pystr) : bool :=
  starts_with kw u ||
  match u with
  | [] => false
  | _ :: u' => contains kw u'
  end.

(** [any(k in u for k in kws)]. *)
Definition any_in (kws : list pystr) (u : pystr) : bool :=
  existsb (fun k => contains k u) kws.

Definition mem_cp (c : N) (cs : list N) : bool := existsb (N.eqb c) cs.

(** [str.isspace] on one code point; also the class [\s] of [re] on [str]
    patterns. *)
Definition is_space (c : N) : bool :=
  ((9 <=? c) && (c <=? 13)) || ((28 <=? c) && (c <=? 32))
  || mem_cp c [133; 160; 5760; 8232; 8233; 8239; 8287; 12288]
  || ((8192 <=? c) && (c <=? 8202)).

Fixpoint lstrip (s : pystr) : pystr :=
  match s with
  | [] => []
  | c :: r => if is_space c then lstrip r else s
  end.

Fixpoint rstrip (s : pystr) : pystr :=
  match s with
  | [] => []
  | c :: r =>
    match rstrip r with
    | [] => if is_space c then [] else [c]
    | r' => c :: r'
    end
  end.

(** [s.strip()]. *)
Definition strip (s : pystr) : pystr := rstrip (lstrip s).

(** [s.endswith(suffix)]. *)
Definition ends_with (suffix s : pystr) : bool :=
  starts_with (rev suffix) (rev s).

(** [sep.join(items)]. *)
Fixpoint py_join (sep : pystr) (items : list pystr) : pystr :=
  match items with
  | [] => []
  | [x] => x
  | x :: rest => x ++ sep ++ py_join sep rest
  end.

(** [s.replace(c, "")] for a one-character [c]. *)
Definition remove_cp (c : N) (s : pystr) : pystr :=
  filter (fun x => x <> c) s.

(* ================================================================== *)
(** ** Values, exceptions *)

(** What [json.loads] can return. A float is kept as [m * 2^e]. *)
Inductive pyval :=
| PNone
| PBool (b : bool)
| PInt (z : Z)
| PFloat (m e : Z)
| PStr (s : pystr)
| PList (l : list pyval)
| PDict (d : gmap pystr pyval).

(** Truth value of an object: [if v:], [not v]. *)
Definition truthy (v : pyval) : bool :=
  match v with
  | PNone => false
  | PBool b => b
  | PInt z => negb (z =? 0)%Z
  | PFloat m _ => negb (m =? 0)%Z
  | PStr s => nonempty s
  | PList l => match l with [] => false | _ => true end
  | PDict d => negb (bool_decide (d = ∅))
  end.

(** [v is not None]. *)
Definition is_not_None (v : pyval) : bool :=
  match v with PNone => false | _ => true end.

(** [v == s] for a string literal [s]. *)
Definition eq_str (v : pyval) (s : pystr) : bool :=
  match v with PStr t => bool_decide (t = s) | _ => false end.

Inductive exn :=
| AttributeError
| TypeError
| re_error
| FuturesTimeoutError
| ProviderError.

Inductive result (A : Type) :=
| Ok (a : A)
| Raise (e : exn).
Arguments Ok {A} a.
Arguments Raise {A} e.

Definition bind {A B} (r : result A) (k : A -> result B) : result B :=
  match r with
  | Ok a => k a
  | Raise e => Raise e
  end.

Notation "x <- e ;; k" := (bind e (fun x => k))
  (at level 100, e at next level, right associativity).

(** [d.copy()]: only dicts and lists have the method. *)
Definition py_copy (v : pyval) : result pyval :=
  match v with
  | PDict _ | PList _ => Ok v
  | _ => Raise AttributeError
  end.

(** [d.get(k)]: only dicts have the method; a missing key gives [None]. *)
Definition py_get (v : pyval) (k : pystr) : result pyval :=
  match v with
  | PDict d => Ok (default PNone (d !! k))
  | _ => Raise AttributeError
  end.

(** [d[k] = x] with a string key. *)
Definition py_setitem (v : pyval) (k : pystr) (x : pyval) : result pyval :=
  match v with
  | PDict d => Ok (PDict (<[k := x]> d))
  | _ => Raise TypeError
  end.

(** The built-ins whose behaviour rests on tables outside this file:
    [str.lower], the text an f-string gives a value, and [re.split] for a
    pattern that compiles. *)
Class PyBuiltins := {
  lower : pystr -> pystr;
  py_str : pyval -> pystr;
  re_split_compiled : pystr -> pystr -> list pystr
}.

(** Code points [str.lower] leaves alone whatever surrounds them: the
    lower-case ASCII letters and the CJK unified ideographs. *)
Definition caseless (c : N) : bool :=
  ((97 <=? c) && (c <=? 122)) || ((19968 <=? c) && (c <=? 40959)).

(** [str.lower] maps code point by code point, so a caseless word in the
    text is still there afterwards. *)
Definition lower_keeps `{PyBuiltins} : Prop :=
  forall kw u, forallb caseless kw = true ->
    contains kw u = true -> contains kw (lower u) = true.

(** The built-ins on the inputs of this file's examples, which are ASCII
    and CJK utterances and states whose fields are strings, integers,
    booleans or [None]: there [str.lower] touches the letters A to Z only.
    The theorems hold for every [PyBuiltins]; this instance serves to
    evaluate the definitions. *)
Definition ascii_lower_cp (c : N) : N :=
  if (65 <=? c) && (c <=? 90) then c + 32 else c.

(** The text of a value; a float or a container, which no example formats,
    is shown by the name of its type. *)
Definition text_str (v : pyval) : pystr :=
  match v with
  | PStr s => s
  | PNone => py "None"
  | PBool true => py "True"
  | PBool false => py "False"
  | PInt z => py (NilZero.string_of_int (Z.to_int z))
  | PFloat _ _ => py "<float>"
  | PList _ => py "<list>"
  | PDict _ => py "<dict>"
  end.

(** No example gets past the compilation of a pattern, so the split of a
    compiled pattern is left trivial. *)
#[global] Instance text_builtins : PyBuiltins := {|
  lower := map ascii_lower_cp;
  py_str := text_str;
  re_split_compiled := fun _ s => [s]
|}.

(* ================================================================== *)
(** ** State extractor *)

Definition time_keywords : list pystr :=
  [py "星期"; py "禮拜"; py "聽日"; py "後日"; py "今日"; py "今晚";
   py "下晝"; py "夜晚"; py "點"; py "am"; py "pm"].

Section Engine.
Context `{PyBuiltins}.

Definition update_conversation_state (current_state : pyval)
    (user_text : pystr) : result pyval :=
  new_state <- py_copy current_state ;;
  let u := user_text in
  treatment <- py_get new_state (py "treatment") ;;
  new_state <-
    (if negb (truthy treatment) then
       if contains (py "深層清潔") u || contains (py "deep") (lower u) then
         py_setitem new_state (py "treatment") (PStr (py "深層清潔 facial"))
       else if contains (py "basic facial") (lower u)
               || (contains (py "basic") (lower u)
                   && contains (py "facial") (lower u)) then
         py_setitem new_state (py "treatment") (PStr (py "basic facial"))
       else if contains (py "皮秒") u || contains (py "激光") u then
         py_setitem new_state (py "treatment") (PStr (py "皮秒激光療程"))
       else if contains (py "按摩") u || contains (py "body") (lower u) then
         py_setitem new_state (py "treatment") (PStr (py "身體按摩"))
       else Ok new_state
     else Ok new_state) ;;
  booking_time <- py_get new_state (py "booking_time") ;;
  if negb (truthy booking_time) then
    if any_in time_keywords u then
      py_setitem new_state (py "booking_time") (PStr (take 50 (strip u)))
    else Ok new_state
  else Ok new_state.

Definition build_memory_context (state : pyval) : result pystr :=
  treatment <- py_get state (py "treatment") ;;
  let items :=
    if truthy treatment then
      [py "客人已經選擇療程：" ++ py_str treatment ++ py "。"
        ++ py "唔好再問邊款療程，只可以重複確認。"]
    else [] in
  booking_time <- py_get state (py "booking_time") ;;
  let items :=
    if truthy booking_time then
      items ++ [py "客人預約時間：" ++ py_str booking_time ++ py "。"
                 ++ py "唔好再問幾時方便，只可以重複確認。"]
    else items in
  match items with
  | [] => Ok []
  | _ =>
    Ok (py "【客人資料（本輪對話中已知，必須記住）】" ++ [10]
        ++ py_join [10] (map (fun x => py "- " ++ x) items)
        ++ [10])
  end.

(* ================================================================== *)
(** ** Quick-path classifier and rule responder *)

Definition booking_signals : list pystr :=
  [py "預約"; py "約"; py "book"; py "改期";
   py "幾點"; py "幾時"; py "邊日"; py "時間"].

Definition price_signals : list pystr :=
  [py "幾錢"; py "幾多錢"; py "價錢"; py "費用"; py "cost"].

Definition facial_signals : list pystr :=
  [py "facial"; py "面部"; py "清潔"; py "皮膚"; py "做面"].

Definition _should_use_quick_path (user_text : pystr) (state : pyval)
    : result bool :=
  let u := lower user_text in
  if any_in booking_signals u then Ok true
  else if any_in price_signals u then Ok true
  else if any_in facial_signals u then
    treatment <- py_get state (py "treatment") ;;
    if truthy treatment then Ok true else Ok false
  else Ok false.

(** The keyword lists of the responder's first three branches. *)
Definition rule_booking : list pystr :=
  [py "預約"; py "約"; py "book"; py "改期"].

Definition rule_price : list pystr :=
  [py "幾錢"; py "幾多錢"; py "價錢"; py "費用"].

Definition rule_service : list pystr :=
  [py "facial"; py "清潔"; py "皮膚"].

Definition ASK_TREATMENT : pystr :=
  py "好呀～你想預約邊款療程呢？basic facial 定深層清潔 facial？".

Definition PRICE_BASIC : pystr :=
  py "good，basic facial 係 $480 起。有咩皮膚問題想重點改善嗎？".

Definition PRICE_DEEP : pystr :=
  py "deep facial 係 $680 起。幫你深層清潔同補水。".

Definition PRICE_LIST : pystr :=
  py "basic facial $480 起，深層清潔 $680，皮秒激光 $1800 起。你想了解邊款呢？".

Definition quick_rule_reply (user_text : pystr) (state : pyval)
    : result pystr :=
  let u := lower user_text in
  treatment <- py_get state (py "treatment") ;;
  booking_time <- py_get state (py "booking_time") ;;
  if any_in rule_booking u then
    if negb (truthy treatment) then Ok ASK_TREATMENT
    else if negb (truthy booking_time) then
      Ok (py "明白～你想預約 " ++ py_str treatment
          ++ py "。你想約邊日同幾點呢？")
    else
      Ok (py "好～我幫你登記：" ++ py_str booking_time ++ py " 做 "
          ++ py_str treatment ++ py "。麻煩留低全名同電話號碼～")
  else if any_in rule_price u then
    if truthy treatment then
      if eq_str treatment (py "basic facial") then Ok PRICE_BASIC
      else if eq_str treatment (py "深層清潔 facial") then Ok PRICE_DEEP
      else
        Ok (py "你揀嘅 " ++ py_str treatment
            ++ py " 根據療程時間唔同，約 $680-$1800 左右。")
    else Ok PRICE_LIST
  else if any_in rule_service u && truthy treatment then
    Ok (py "好呀，關於 " ++ py_str treatment
        ++ py "，我哋可以幫你安排。你想幾時嚟做呢？")
  else if contains (py "營業時間") u || contains (py "幾時開") u
          || contains (py "幾時收") u then
    Ok (py "我哋營業時間係早上十一點到夜晚九點，星期一休息。")
  else if contains (py "位置") u || contains (py "地址") u
          || contains (py "邊度") u then
    Ok (py "我哋喺中環，具體地址你可以聯絡我時再畀你。你想先預約嗎？")
  else Ok [].

(* ================================================================== *)
(** ** Text cleaning *)

Definition is_open (c : N) : bool := mem_cp c (py "（(").
Definition is_close (c : N) : bool := mem_cp c (py "）)").

(** After an opening bracket: the number of code points up to and including
    the closing bracket, when at most [n] code points that are no brackets
    stand in between (the body [[^（）\(\)]{0,40}[）\)]] of the pattern). *)
Fixpoint span_end (n : nat) (s : pystr) {struct s} : option nat :=
  match s with
  | [] => None
  | c :: r =>
    if is_close c then Some 1%nat
    else if is_open c then None
    else match n with
         | O => None
         | S n' => option_map S (span_end n' r)
         end
  end.

(** [re.sub(r"[（\(][^（）\(\)]{0,40}[）\)]", "", text)], scanning from the
    left; [skip] counts the code points of the match being deleted. *)
Fixpoint sub_parens (skip : nat) (s : pystr) : pystr :=
  match s with
  | [] => []
  | c :: r =>
    match skip with
    | S k => sub_parens k r
    | O =>
      if is_open c then
        match span_end 40 r with
        | Some k => sub_parens k r
        | None => c :: sub_parens 0 r
        end
      else c :: sub_parens 0 r
    end
  end.

Definition is_dash (c : N) : bool := mem_cp c (py "-─═").

(** [re.sub(r"[\-─═]+", "", text)]. *)
Definition sub_dashes (s : pystr) : pystr :=
  filter (fun c => is_dash c = false) s.

Definition ASTERISK : N := 42.
Definition DQUOTE : N := 34.
Definition SQUOTE : N := 39.

Definition strip_brackets_and_symbols (text : pystr) : pystr :=
  if negb (nonempty text) then []
  else
    let text := sub_parens 0 text in
    let text := remove_cp SQUOTE (remove_cp DQUOTE (remove_cp ASTERISK text)) in
    let text := sub_dashes text in
    strip text.

(** The alternatives of [(斜線|slash|／|\\|/)] in their order, each a list
    of classes: under [re.I] a letter of [slash] also matches its upper
    case, and [s] the long s. *)
Definition slash_tokens : list (list pystr) :=
  [ [py "斜"; py "線"];
    [py "sSſ"; py "lL"; py "aA"; py "sSſ"; py "hH"];
    [py "／"];
    [[92]];
    [py "/"] ].

Fixpoint match_classes (tok : list pystr) (s : pystr) : bool :=
  match tok, s with
  | [], _ => true
  | _ :: _, [] => false
  | cls :: tok', c :: s' => mem_cp c cls && match_classes tok' s'
  end.

(** The length of the alternative that matches at the head of [s]. *)
Definition slash_token_len (s : pystr) : option nat :=
  option_map (@List.length pystr) (List.find (fun tok => match_classes tok s) slash_tokens).

(** [re.sub(r"(斜線|slash|／|\\|/)+", " ", text, flags=re.I)]: [skip]
    counts the rest of the token being consumed, [in_run] tells that a
    token has just ended, so that a following one extends the same match. *)
Fixpoint sub_slashes (skip : nat) (in_run : bool) (s : pystr) : pystr :=
  match s with
  | [] => []
  | c :: r =>
    match skip with
    | S k => sub_slashes k in_run r
    | O =>
      match slash_token_len s with
      | Some n =>
        (if in_run then [] else [32]) ++ sub_slashes (pred n) true r
      | None => c :: sub_slashes 0 false r
      end
    end
  end.

(** [re.sub(r"\s+", " ", text)]. *)
Fixpoint sub_spaces (in_run : bool) (s : pystr) : pystr :=
  match s with
  | [] => []
  | c :: r =>
    if is_space c then (if in_run then [] else [32]) ++ sub_spaces true r
    else c :: sub_spaces false r
  end.

Definition sanitize_tts_text (text : pystr) : pystr :=
  if negb (nonempty text) then []
  else
    let text := strip_brackets_and_symbols text in
    let text := sub_slashes 0 false text in
    strip (sub_spaces false text).

(* ================================================================== *)
(** ** Consistency filter *)

(** The pattern handed to [re.split], as the source spells it. *)
Definition SENTENCE_PATTERN : pystr := py "(? <=[。！？\?! ])\s*".

(** What may follow [(?] in a pattern: [P : # = ! < (], a flag letter or
    [-]. Python's pattern parser raises [re.error] (unknown extension) on
    anything else, before any text is looked at. *)
Definition group_extensions : pystr := py "P:#=!<(-aiLmsux".

Definition sre_parse (pattern : pystr) : result unit :=
  match pattern with
  | 40 :: 63 :: c :: _ =>
    if mem_cp c group_extensions then Ok tt else Raise re_error
  | _ => Ok tt
  end.

(** [re.split(pattern, text)]: compile, then split. *)
Definition re_split (pattern text : pystr) : result (list pystr) :=
  _ <- sre_parse pattern ;;
  Ok (re_split_compiled pattern text).

Definition reask_treatment : list pystr :=
  [py "想做咩"; py "邊款療程"; py "做邊款"; py "邊隻 facial"].

Definition reask_time : list pystr :=
  [py "幾點"; py "幾時"; py "邊日"; py "咩時間"].

(** One turn of the loop over the sentences: is [s] dropped? *)
Definition skip_sentence (has_treatment has_time : bool) (s : pystr) : bool :=
  let skip := false in
  let skip := if has_treatment && any_in reask_treatment s then true else skip in
  let skip := if has_time && any_in reask_time s then true else skip in
  skip.

(** The loop: [filtered] after all sentences have been seen. *)
Fixpoint filter_sentences (has_treatment has_time : bool)
    (sentences : list pystr) : list pystr :=
  match sentences with
  | [] => []
  | s :: rest =>
    if negb (nonempty (strip s)) then
      filter_sentences has_treatment has_time rest
    else if skip_sentence has_treatment has_time s then
      filter_sentences has_treatment has_time rest
    else strip s :: filter_sentences has_treatment has_time rest
  end.

(** What follows the split: the two tests on the state, the loop, the
    join and the cleaning. *)
Definition after_split (sentences : list pystr) (state : pyval)
    : result pystr :=
  treatment <- py_get state (py "treatment") ;;
  let has_treatment := is_not_None treatment in
  booking_time <- py_get state (py "booking_time") ;;
  let has_time := is_not_None booking_time in
  let filtered := filter_sentences has_treatment has_time sentences in
  let cleaned := strip (py_join (py "。") filtered) in
  let cleaned :=
    if negb (ends_with (py "。") cleaned) && nonempty cleaned
    then cleaned ++ py "。" else cleaned in
  Ok (strip_brackets_and_symbols cleaned).

Definition apply_hard_rules_to_reply (raw_reply : pystr) (state : pyval)
    : result pystr :=
  if negb (nonempty raw_reply) then Ok raw_reply
  else
    sentences <- re_split SENTENCE_PATTERN raw_reply ;;
    after_split sentences state.

(* ================================================================== *)
(** ** The model provider *)

(** A response object of the provider, as [_extract_text_from_response]
    looks at it. *)
Record part := { part_text : option pystr }.

(** [None]: reading [content.parts] raises. *)
Record candidate := { cand_parts : option (list part) }.

(** [resp_text]: reading [response.text] raises, or the attribute is
    missing ([None]), or it holds a string. *)
Record response := {
  resp_text : result (option pystr);
  resp_candidates : list candidate
}.

Fixpoint first_part_text (parts : list part) : option pystr :=
  match parts with
  | [] => None
  | p :: rest =>
    match part_text p with
    | Some t => if nonempty t then Some (strip t) else first_part_text rest
    | None => first_part_text rest
    end
  end.

(** The loop over the candidates inside the second [try]. *)
Fixpoint first_candidate_text (cands : list candidate) : pystr :=
  match cands with
  | [] => []
  | c :: rest =>
    match cand_parts c with
    | None => []
    | Some parts =>
      match first_part_text parts with
      | Some t => t
      | None => first_candidate_text rest
      end
    end
  end.

Definition _extract_text_from_response (r : response) : pystr :=
  match resp_text r with
  | Ok (Some t) =>
    if nonempty t then strip t else first_candidate_text (resp_candidates r)
  | _ => first_candidate_text (resp_candidates r)
  end.

(** The outcome of waiting for the model on a prompt: a response, or an
    exception ([FuturesTimeoutError] when the wait timed out). *)
Inductive outcome :=
| Responded (r : response)
| Failed (e : exn).

(* ================================================================== *)
(** ** Orchestrator *)

Definition DIDNT_CATCH : pystr :=
  py "唔好意思，我頭先好似聽唔清楚，可以再講多次嗎？".

Definition CANT_RESPOND : pystr :=
  py "唔好意思，我暫時回應唔到，可以重新講嗎？".

Definition BUSY : pystr := py "系統暫時繁忙，可以稍後再試嗎？".

Definition TECH_PROBLEM : pystr :=
  py "唔好意思，出咗啲技術問題，可以再講一次嗎？".

(** [fallback or canned]. *)
Definition or_else (fallback canned : pystr) : pystr :=
  if nonempty fallback then fallback else canned.

(** Step 2 of [generate_reply]: [Some reply] when the function returns from
    the quick path, [None] when it goes on to the model. *)
Definition quick_stage (user_text : pystr) (new_state : pyval)
    : result (option pystr) :=
  quick <- _should_use_quick_path user_text new_state ;;
  if quick then
    fast_reply <- quick_rule_reply user_text new_state ;;
    if nonempty fast_reply then Ok (Some fast_reply) else Ok None
  else Ok None.

(** The prompt [_call_gemini] sends. *)
Definition build_prompt (user_text : pystr) (new_state : pyval)
    : result pystr :=
  memory_ctx <- build_memory_context new_state ;;
  Ok (memory_ctx ++ py "客人：「" ++ user_text ++ py "」" ++ [10]
      ++ py "你：").

(** The body of the [try]. *)
Definition ask_model (gemini_model : pystr -> outcome)
    (user_text : pystr) (new_state : pyval) : result (pystr * pyval) :=
  prompt <- build_prompt user_text new_state ;;
  match gemini_model prompt with
  | Failed e => Raise e
  | Responded response =>
    let reply_text := _extract_text_from_response response in
    if nonempty reply_text then
      reply_text <- apply_hard_rules_to_reply reply_text new_state ;;
      Ok (reply_text, new_state)
    else Ok (CANT_RESPOND, new_state)
  end.

(** Step 3: the [try] with its two handlers. *)
Definition model_stage (gemini_model : pystr -> outcome)
    (user_text : pystr) (new_state : pyval) : result (pystr * pyval) :=
  match ask_model gemini_model user_text new_state with
  | Ok r => Ok r
  | Raise FuturesTimeoutError =>
    fallback <- quick_rule_reply user_text new_state ;;
    Ok (or_else fallback BUSY, new_state)
  | Raise _ =>
    fallback <- quick_rule_reply user_text new_state ;;
    Ok (or_else fallback TECH_PROBLEM, new_state)
  end.

Definition generate_reply (gemini_model : pystr -> outcome)
    (user_text : pystr) (current_state : pyval) : result (pystr * pyval) :=
  if negb (nonempty user_text) then Ok (DIDNT_CATCH, current_state)
  else
    new_state <- update_conversation_state current_state user_text ;;
    fast <- quick_stage user_text new_state ;;
    match fast with
    | Some fast_reply => Ok (fast_reply, new_state)
    | None => model_stage gemini_model user_text new_state
    end.

Definition reset_memory : pyval :=
  PDict (<[py "treatment" := PNone]> (<[py "booking_time" := PNone]> ∅)).

End Engine.

(* ================================================================== *)
(** ** Vocabulary of the statements *)

(** A field of the state is set when the code finds it true ([if
    state.get(k)]), unset when [state.get(k)] is false: missing, [None] or
    empty. *)
Definition field_set (s : pyval) (k : pystr) (v : pyval) : Prop :=
  py_get s k = Ok v /\ truthy v = true.

Definition field_unset (s : pyval) (k : pystr) : Prop :=
  exists v, py_get s k = Ok v /\ truthy v = false.

(** The utterance mentions one of the keywords, as written or after
    lower-casing. *)
Definition mentions `{PyBuiltins} (kws : list pystr) (u : pystr) : Prop :=
  any_in kws u = true \/ any_in kws (lower u) = true.

Definition is_bracket (c : N) : bool := is_open c || is_close c.

(** A parenthetical aside: an opening bracket, at most forty code points
    that are no brackets, a closing bracket. *)
Definition aside (a : pystr) : Prop :=
  exists o mid c,
    a = o :: mid ++ [c] /\ is_open o = true /\ is_close c = true
    /\ forallb (fun x => negb (is_bracket x)) mid = true
    /\ (List.length mid <= 40)%nat.

(** The steps of [sanitize_tts_text] that follow the removal of the
    asides. *)
Definition after_parens (text : pystr) : pystr :=
  let text := remove_cp SQUOTE (remove_cp DQUOTE (remove_cp ASTERISK text)) in
  let text := strip (sub_dashes text) in
  strip (sub_spaces false (sub_slashes 0 false text)).

(** The canned reply of the handler that catches [e]. *)
Definition canned_for (e : exn) : pystr :=
  match e with FuturesTimeoutError => BUSY | _ => TECH_PROBLEM end.

(** No class of a token holds a white-space code point. *)
Definition spacefree (tok : list pystr) : bool :=
  forallb (forallb (fun c => negb (is_space c))) tok.

(** No token starts anywhere in [s]. *)
Definition slash_free (s : pystr) : Prop :=
  forall a b, s = a ++ b -> slash_token_len b = None.

(** The first code point, if any, is no white space. *)
Definition starts_solid (s : pystr) : Prop :=
  match s with [] => True | c :: _ => is_space c = false end.

(** Every white-space code point is a plain space followed by something
    that is no white space, or by nothing. *)
Fixpoint single_spaced (s : pystr) : Prop :=
  match s with
  | [] => True
  | c :: r => (is_space c = true -> c = 32 /\ starts_solid r) /\ single_spaced r
  end.

(** The words and signs the slash pass replaces, for the statement that
    none of them is left. *)
Definition slash_words : list pystr :=
  [py "斜線"; py "slash"; py "Slash"; py "SLASH"; py "／"; [92]; py "/"].

(** Sample states and a sample response for the examples. *)
Definition chose_basic : pyval :=
  PDict (<[py "treatment" := PStr (py "basic facial")]> ∅).

Definition booked_basic : pyval :=
  PDict (<[py "booking_time" := PStr (py "聽日三點")]>
         (<[py "treatment" := PStr (py "basic facial")]> ∅)).

Definition text_response (t : pystr) : response :=
  {| resp_text := Ok (Some t); resp_candidates := [] |}.


(* ================================================================== *)
(** ** Further vocabulary *)

Section EngineViews.
Context `{PyBuiltins}.

(** The treatment the extractor reads off an utterance, by the order of its
    tests. *)
Definition detected_treatment (u : pystr) : option pystr :=
  if contains (py "深層清潔") u || contains (py "deep") (lower u) then
    Some (py "深層清潔 facial")
  else if contains (py "basic facial") (lower u)
          || (contains (py "basic") (lower u)
              && contains (py "facial") (lower u)) then
    Some (py "basic facial")
  else if contains (py "皮秒") u || contains (py "激光") u then
    Some (py "皮秒激光療程")
  else if contains (py "按摩") u || contains (py "body") (lower u) then
    Some (py "身體按摩")
  else None.

(** The two steps of the extractor on the entries of a dict. *)
Definition with_treatment (u : pystr) (d : gmap pystr pyval)
    : gmap pystr pyval :=
  if truthy (default PNone (d !! py "treatment")) then d
  else match detected_treatment u with
       | Some t => <[py "treatment" := PStr t]> d
       | None => d
       end.

Definition with_time (u : pystr) (d : gmap pystr pyval)
    : gmap pystr pyval :=
  if truthy (default PNone (d !! py "booking_time")) then d
  else if any_in time_keywords u then
    <[py "booking_time" := PStr (take 50 (strip u))]> d
  else d.

End EngineViews.

(** The catalogue of the extractor. *)
Definition treatments : list pystr :=
  [py "深層清潔 facial"; py "basic facial"; py "皮秒激光療程"; py "身體按摩"].

(** The words of the responder's location branch and its answer. *)
Definition location_words : list pystr := [py "位置"; py "地址"; py "邊度"].

Definition LOCATION_REPLY : pystr :=
  py "我哋喺中環，具體地址你可以聯絡我時再畀你。你想先預約嗎？".

(** The replies [generate_reply] holds ready. *)
Definition canned_replies : list pystr :=
  [DIDNT_CATCH; CANT_RESPOND; BUSY; TECH_PROBLEM].

(** The last code point, if any, is no white space. *)
Definition ends_solid (s : pystr) : Prop :=
  forall a c, s = a ++ [c] -> is_space c = false.

(* ================================================================== *)
(** ** The web application ([app.py]) *)

(** What the services outside the program do is given: each call to one of
    them is an outcome of the [world]. *)

(** An exception in the handler: one of the engine, or one of the
    application's own. *)
Inductive app_exn :=
| CoreRaised (e : exn)
| ValueError
| RuntimeError
| TimeoutExpired
| OSError.

Inductive attempt (A : Type) :=
| Done (a : A)
| Threw (e : app_exn).
Arguments Done {A} a.
Arguments Threw {A} e.

Definition and_then {A B} (r : attempt A) (k : A -> attempt B) : attempt B :=
  match r with
  | Done a => k a
  | Threw e => Threw e
  end.

(** The result of one recognition: the reason, with the text when speech
    was recognised ([None]: no text), or an exception. *)
Inductive recognition :=
| RecognizedSpeech (text : option pystr)
| NoMatch
| RecognitionCanceled
| OtherRecognition
| RecognitionRaised.

Definition stt_from_wav (r : recognition) : pystr :=
  match r with
  | RecognizedSpeech text => strip (default [] text)
  | NoMatch => []
  | RecognitionCanceled => []
  | OtherRecognition => []
  | RecognitionRaised => []
  end.

(** The result of one synthesis: its reason, the text of the reason, whether
    the output file exists and is not empty, and the error details when
    there are cancellation details; or an exception with its text. *)
Inductive synth_reason :=
| SynthesizingAudioCompleted
| SynthCanceled
| SynthOtherReason.

Record synthesis := {
  syn_reason : synth_reason;
  syn_reason_text : pystr;
  syn_file_ok : bool;
  syn_cancel_details : option pystr
}.

Inductive synth_outcome :=
| Synthesized (r : synthesis)
| SynthRaised (msg : pystr).

(** [t[:m]] for an integer [m]. *)
Definition py_prefix (m : Z) (t : pystr) : pystr :=
  if (0 <=? m)%Z then take (Z.to_nat m) t
  else take (Z.to_nat (Z.of_nat (List.length t) + m)) t.

(** The cut to [max_chars] code points. *)
Definition spoken_text (max_chars : Z) (t : pystr) : pystr :=
  if (max_chars <? Z.of_nat (List.length t))%Z then py_prefix max_chars t
  else t.

(** What [tts_to_mp3] returns after the synthesiser. *)
Definition tts_result (o : synth_outcome) : bool * pystr :=
  match o with
  | SynthRaised msg => (false, msg)
  | Synthesized r =>
    match syn_reason r with
    | SynthesizingAudioCompleted =>
      if syn_file_ok r then (true, [])
      else (false, py "TTS 失敗：" ++ syn_reason_text r)
    | SynthCanceled =>
      let err := default (py "未知") (syn_cancel_details r) in
      (false, py "TTS 失敗：" ++ err)
    | SynthOtherReason => (false, py "TTS 失敗：" ++ syn_reason_text r)
    end
  end.

(** [max_chars] is MAX_REPLY_CHARS as [int] reads it ([None]: no
    integer). *)
Definition tts_to_mp3 (synthesize : pystr -> synth_outcome)
    (max_chars : option Z) (text : pystr) : attempt (bool * pystr) :=
  let t := sanitize_tts_text text in
  let t := strip t in
  if negb (nonempty t) then Done (false, py "文字為空")
  else
    match max_chars with
    | None => Threw ValueError
    | Some max_chars =>
      let t := spoken_text max_chars t in
      Done (tts_result (synthesize t))
    end.

(** [convert_to_wav]: is ffmpeg on the path, and how its run ended. *)
Inductive ffmpeg_run :=
| RunTimedOut
| Exited (returncode : Z).

Definition convert_to_wav (ffmpeg_on_path : bool) (run : ffmpeg_run)
    : attempt unit :=
  if negb ffmpeg_on_path then Threw RuntimeError
  else match run with
       | RunTimedOut => Threw TimeoutExpired
       | Exited returncode =>
         if negb (returncode =? 0)%Z then Threw RuntimeError else Done tt
       end.

(** The file route. *)
Inductive file_response :=
| NotFound
| SendFile (name : pystr).

Definition tts_file (is_file : pystr -> bool) (name : pystr) : file_response :=
  if negb (starts_with (py "tts_") name) || negb (ends_with (py ".mp3") name)
  then NotFound
  else if negb (is_file name) then NotFound
  else SendFile name.

(** The format of a float in an f-string: a dot of the specification that
    is not its fill character must be followed by the digits of the
    precision, or Python raises [ValueError]. *)
Definition is_digit (c : N) : bool := (48 <=? c) && (c <=? 57).

Fixpoint missing_precision (spec : pystr) : bool :=
  match spec with
  | [] => false
  | c :: r =>
    if c =? 46 then
      match r with
      | d :: _ => negb (is_digit d)
      | [] => true
      end
    else missing_precision r
  end.

Definition format_float (spec : pystr) : attempt unit :=
  let spec' :=
    match spec with
    | _ :: a :: r => if mem_cp a (py "<>=^") then r else spec
    | _ => spec
    end in
  if missing_precision spec' then Threw ValueError else Done tt.

(** A request: whether an audio file with a name came with it, and its
    state field as [json.loads] reads it ([None]: no such field; [Some
    None]: text that does not parse). *)
Record voice_request := {
  has_audio : bool;
  state_field : option (option pyval)
}.

Record world := {
  save_upload : attempt unit;
  ffmpeg_on_path : bool;
  ffmpeg : ffmpeg_run;
  recognize : recognition;
  gemini : pystr -> outcome;
  synthesize : pystr -> synth_outcome;
  max_reply_chars : option Z;
  rid : pystr;
  timing_text : pystr
}.

(** The bodies [api_voice] answers with. *)
Inductive api_body :=
| NoAudio
| NoSpeech (state : pyval) (timing : pystr)
| ServerError (e : app_exn) (state : pyval)
| Answer (tts_ok : bool) (tts_error user_text reply_text audio_url : pystr)
    (state : pyval) (timing : pystr).

Definition status (b : api_body) : nat :=
  match b with
  | NoAudio => 400
  | NoSpeech _ _ => 400
  | ServerError _ _ => 500
  | Answer _ _ _ _ _ _ _ => 200
  end.

Definition body_ok (b : api_body) : bool :=
  match b with
  | Answer _ _ _ _ _ _ _ => true
  | _ => false
  end.

(** [json.loads(state_str)], with [{}] for text that does not parse. *)
Definition current_state_of (req : voice_request) : pyval :=
  match state_field req with
  | Some (Some v) => v
  | Some None => PDict ∅
  | None => PDict ∅
  end.

Definition APP_DIDNT_CATCH : pystr :=
  py "唔好意思，我頭先聽唔清楚，可以再講一次嗎？".

Definition mp3_name (w : world) : pystr := py "tts_" ++ rid w ++ py ".mp3".

Section Handler.
Context `{PyBuiltins}.

(** Steps 4 to 7 of [api_voice]. *)
Definition answer_turn (w : world) (current_state : pyval)
    : attempt api_body :=
  let user_text := stt_from_wav (recognize w) in
  if negb (nonempty user_text) then
    and_then (format_float (py ".1f")) (fun _ =>
    Done (NoSpeech current_state (timing_text w)))
  else
    and_then (format_float (py ".2f")) (fun _ =>
    match generate_reply (gemini w) user_text current_state with
    | Raise e => Threw (CoreRaised e)
    | Ok (reply_text, new_state) =>
      let reply_text :=
        if negb (nonempty reply_text) then APP_DIDNT_CATCH else reply_text in
      and_then (format_float (py ".2f")) (fun _ =>
      and_then (tts_to_mp3 (synthesize w) (max_reply_chars w) reply_text)
        (fun '(tts_ok, tts_err) =>
      and_then (format_float (py ".2f")) (fun _ =>
      and_then (format_float (py ".2f")) (fun _ =>
      and_then (format_float (py ".1f")) (fun _ =>
      Done (Answer tts_ok tts_err user_text reply_text
              (if tts_ok then py "/tts/" ++ mp3_name w else [])
              new_state (timing_text w)))))))
    end).

(** The body of the [try] of [api_voice]. *)
Definition try_voice (w : world) (req : voice_request) : attempt api_body :=
  if negb (has_audio req) then Done NoAudio
  else
    let current_state := current_state_of req in
    and_then (save_upload w) (fun _ =>
    and_then (convert_to_wav (ffmpeg_on_path w) (ffmpeg w)) (fun _ =>
    and_then (format_float (py ". 2f")) (fun _ =>
    answer_turn w current_state))).

Definition api_voice (w : world) (req : voice_request) : api_body :=
  match try_voice w req with
  | Done b => b
  | Threw e => ServerError e (current_state_of req)
  end.

End Handler.

(** A sample world and a sample request for the examples. *)
Definition sample_synthesis : synthesis := {|
  syn_reason := SynthesizingAudioCompleted;
  syn_reason_text := py "ResultReason.SynthesizingAudioCompleted";
  syn_file_ok := true;
  syn_cancel_details := None
|}.

Definition sample_world : world := {|
  save_upload := Done tt;
  ffmpeg_on_path := true;
  ffmpeg := Exited 0;
  recognize := RecognizedSpeech (Some (py " 我想預約 "));
  gemini := fun _ => Failed FuturesTimeoutError;
  synthesize := fun _ => Synthesized sample_synthesis;
  max_reply_chars := Some 180%Z;
  rid := py "0f3a";
  timing_text := py "1.0s"
|}.

Definition sample_request : voice_request := {|
  has_audio := true;
  state_field := Some (Some chose_basic)
|}.

(* ================================================================== *)
(** ** The engine and the handler over the sentence split *)


(** [apply_hard_rules_to_reply], [generate_reply] and the steps of
    [api_voice] that call it, written over [split_call], which stands for
    the one call of [re.split] in the filter; nothing else is changed.
    Taken at [re_split SENTENCE_PATTERN] they are the definitions above. *)
Section SplitGiven.
Context `{PyBuiltins}.
Variable split_call : pystr -> result (list pystr).






End SplitGiven.


(* ================================================================== *)
(** * Properties *)

Arguments py : simpl never.

(** ** Substring search *)

Lemma starts_with_app (kw rest : pystr) : starts_with kw (kw ++ rest) = true.
Proof.
  induction kw as [|k kw IH]; simpl; [reflexivity|].
  rewrite N.eqb_refl. exact IH.
Qed.

Lemma starts_with_inv (kw u : pystr) :
  starts_with kw u = true -> exists rest, u = kw ++ rest.
Proof.
  revert u. induction kw as [|k kw IH]; intros u Hs.
  - exists u. reflexivity.
  - destruct u as [|c u]; simpl in Hs; [discriminate|].
    apply andb_true_iff in Hs as [Hk Hr].
    apply N.eqb_eq in Hk. subst c.
    destruct (IH u Hr) as [rest ->]. exists rest. reflexivity.
Qed.

Lemma contains_intro (a kw b : pystr) : contains kw (a ++ kw ++ b) = true.
Proof.
  induction a as [|c a IH].
  - simpl app. destruct (kw ++ b) eqn:E; simpl; rewrite <- ?E;
      rewrite starts_with_app; reflexivity.
  - simpl. rewrite IH. apply orb_true_r.
Qed.

Lemma contains_inv (kw u : pystr) :
  contains kw u = true -> exists a b, u = a ++ kw ++ b.
Proof.
  induction u as [|c u IH]; simpl; intros Hc.
  - rewrite orb_false_r in Hc. apply starts_with_inv in Hc as [rest ->].
    exists [], rest. reflexivity.
  - apply orb_true_iff in Hc as [Hs|Hr].
    + apply starts_with_inv in Hs as [rest ->]. exists [], rest. reflexivity.
    + destruct (IH Hr) as (a & b & ->). exists (c :: a), b. reflexivity.
Qed.

Lemma any_in_intro (kws : list pystr) (k u : pystr) :
  In k kws -> contains k u = true -> any_in kws u = true.
Proof.
  intros Hin Hc. apply existsb_exists. exists k. split; assumption.
Qed.

Lemma any_in_incl (l1 l2 : list pystr) (u : pystr) :
  incl l1 l2 -> any_in l1 u = true -> any_in l2 u = true.
Proof.
  intros Hincl Ha. apply existsb_exists in Ha as (k & Hin & Hc).
  eapply any_in_intro; [apply Hincl; exact Hin | exact Hc].
Qed.

(** The classifier knows every keyword of the responder's booking branch. *)
Lemma rule_booking_incl : incl rule_booking booking_signals.
Proof.
  intros k Hk. unfold rule_booking in Hk. unfold booking_signals.
  simpl in Hk. simpl. tauto.
Qed.

(** ** Lower-casing *)

Lemma ascii_lower_caseless (c : N) : caseless c = true -> ascii_lower_cp c = c.
Proof.
  unfold caseless, ascii_lower_cp. intros Hc.
  destruct (65 <=? c) eqn:E1, (c <=? 90) eqn:E2; simpl; try reflexivity.
  apply N.leb_le in E2.
  apply orb_true_iff in Hc as [Hc|Hc]; apply andb_true_iff in Hc as [H1 H2];
    apply N.leb_le in H1; lia.
Qed.

Lemma map_lower_caseless (kw : pystr) :
  forallb caseless kw = true -> map ascii_lower_cp kw = kw.
Proof.
  induction kw as [|k kw IH]; simpl; intros Hc; [reflexivity|].
  apply andb_true_iff in Hc as [Hk Hr].
  rewrite ascii_lower_caseless, IH by assumption. reflexivity.
Qed.

(** The sample built-ins satisfy the assumption made on [str.lower]. *)
Lemma text_lower_keeps : @lower_keeps text_builtins.
Proof.
  intros kw u Hkw Hc. apply contains_inv in Hc as (a & b & ->).
  unfold lower, text_builtins. rewrite !map_app.
  rewrite (map_lower_caseless kw Hkw). apply contains_intro.
Qed.

Section Claims.
Context `{PyBuiltins}.

(** A keyword made of caseless code points that the utterance mentions is
    found by the code, which searches the lower-cased utterance. *)
Lemma mentions_found (kws : list pystr) (u : pystr) :
  lower_keeps -> forallb (forallb caseless) kws = true ->
  mentions kws u -> any_in kws (lower u) = true.
Proof.
  intros Hlow Hkws [Hraw|Hl]; [|exact Hl].
  apply existsb_exists in Hraw as (k & Hin & Hc).
  eapply any_in_intro; [exact Hin|].
  apply Hlow; [|exact Hc].
  rewrite forallb_forall in Hkws. apply Hkws, Hin.
Qed.

Lemma py_get_dict (s : pyval) (k : pystr) (v : pyval) :
  py_get s k = Ok v -> exists d, s = PDict d /\ default PNone (d !! k) = v.
Proof.
  destruct s; simpl; intros Hg; try discriminate.
  injection Hg as <-. eauto.
Qed.

Lemma keys_differ : py "treatment" <> py "booking_time".
Proof. vm_compute. discriminate. Qed.

(** Splits on every test of the goal's conditionals, innermost last. *)
Ltac split_ifs :=
  repeat match goal with
         | |- context [if ?b then _ else _] => destruct b eqn:?
         end.

(** ** State extractor *)

(** On a dict the extractor returns a dict, in which every key whose value
    was true keeps its value. *)
Lemma update_dict (d : gmap pystr pyval) (u : pystr) :
  exists d', update_conversation_state (PDict d) u = Ok (PDict d')
    /\ forall k, truthy (default PNone (d !! k)) = true -> d' !! k = d !! k.
Proof.
  unfold update_conversation_state.
  cbn [py_copy bind py_get].
  destruct (truthy (default PNone (d !! py "treatment"))) eqn:Et;
    cbn [negb]; split_ifs; cbn [bind py_setitem py_get];
    rewrite ?(lookup_insert_ne _ _ _ _ keys_differ);
    destruct (truthy (default PNone (d !! py "booking_time"))) eqn:Eb;
    cbn [negb]; split_ifs; cbn [py_setitem];
    (eexists; split; [reflexivity|]); intros k Hk;
    repeat match goal with
           | |- (<[?j := _]> _) !! k = _ =>
             destruct (decide (j = k)) as [?|?];
             [subst k; congruence | rewrite lookup_insert_ne by assumption]
           end; reflexivity.
Qed.

Lemma update_not_dict (s : pyval) (u : pystr) :
  (forall d, s <> PDict d) -> update_conversation_state s u = Raise AttributeError.
Proof.
  intros Hs. destruct s; try reflexivity. destruct (Hs d eq_refl).
Qed.

(** ** Rule responder and classifier on a dict *)

Lemma nonempty_app_l (a b : pystr) : nonempty a = true -> nonempty (a ++ b) = true.
Proof. destruct a; [discriminate | reflexivity]. Qed.

Lemma quick_rule_reply_dict (u : pystr) (d : gmap pystr pyval) :
  exists r, quick_rule_reply u (PDict d) = Ok r.
Proof.
  unfold quick_rule_reply. cbn [py_get bind]. split_ifs; eexists; reflexivity.
Qed.

Lemma should_use_dict (u : pystr) (d : gmap pystr pyval) :
  exists b, _should_use_quick_path u (PDict d) = Ok b.
Proof.
  unfold _should_use_quick_path. cbn [py_get bind]. split_ifs; eexists; reflexivity.
Qed.

Lemma quick_stage_dict (u : pystr) (d : gmap pystr pyval) :
  exists o, quick_stage u (PDict d) = Ok o
    /\ forall r, o = Some r -> nonempty r = true.
Proof.
  unfold quick_stage.
  destruct (should_use_dict u d) as [b ->]. cbn [bind].
  destruct b; [|exists None; split; [reflexivity | discriminate]].
  destruct (quick_rule_reply_dict u d) as [r ->]. cbn [bind].
  destruct (nonempty r) eqn:Er.
  - exists (Some r). split; [reflexivity|]. intros r' [= <-]. exact Er.
  - exists None. split; [reflexivity | discriminate].
Qed.

Lemma or_else_nonempty (fallback canned : pystr) :
  nonempty canned = true -> nonempty (or_else fallback canned) = true.
Proof.
  intros Hc. unfold or_else. destruct (nonempty fallback) eqn:E; assumption.
Qed.

(** ** Consistency filter *)

(** The pattern of the sentence split does not compile. *)
Lemma sentence_pattern_rejected : sre_parse SENTENCE_PATTERN = Raise re_error.
Proof. vm_compute. reflexivity. Qed.

(** So the filter raises on every reply that is not empty, whatever the
    state. *)
Lemma apply_hard_rules_raises (raw : pystr) (s : pyval) :
  nonempty raw = true -> apply_hard_rules_to_reply raw s = Raise re_error.
Proof.
  intros Hr. unfold apply_hard_rules_to_reply, re_split.
  rewrite Hr, sentence_pattern_rejected. reflexivity.
Qed.

(** The loop itself keeps, in their order and stripped, exactly the
    sentences that are not blank and re-ask nothing already known. *)
Lemma filter_sentences_spec (ht hb : bool) (sentences : list pystr) :
  filter_sentences ht hb sentences
  = map strip
      (List.filter (fun s => nonempty (strip s) && negb (skip_sentence ht hb s))
         sentences).
Proof.
  induction sentences as [|s rest IH]; [reflexivity|].
  cbn [filter_sentences List.filter].
  destruct (nonempty (strip s)); cbn [negb andb]; [|exact IH].
  destruct (skip_sentence ht hb s); cbn [negb map]; [exact IH|].
  rewrite IH. reflexivity.
Qed.

(** ** Orchestrator *)

Lemma build_prompt_dict (u : pystr) (d : gmap pystr pyval) :
  exists p, build_prompt u (PDict d) = Ok p.
Proof.
  unfold build_prompt, build_memory_context. cbn [py_get bind].
  split_ifs; cbn [app]; eexists; reflexivity.
Qed.

Lemma canned_nonempty :
  nonempty DIDNT_CATCH = true /\ nonempty CANT_RESPOND = true
  /\ nonempty BUSY = true /\ nonempty TECH_PROBLEM = true.
Proof. vm_compute. auto. Qed.

Lemma canned_for_nonempty (e : exn) : nonempty (canned_for e) = true.
Proof. destruct e; vm_compute; reflexivity. Qed.

Lemma model_stage_raised (gm : pystr -> outcome) (u : pystr) (s : pyval) (e : exn) :
  ask_model gm u s = Raise e ->
  model_stage gm u s
  = (fallback <- quick_rule_reply u s ;; Ok (or_else fallback (canned_for e), s)).
Proof.
  intros Ha. unfold model_stage. rewrite Ha.
  destruct e; cbv beta iota delta [canned_for]; reflexivity.
Qed.

(** On a dict the [try] either returns the canned "can't respond" reply or
    raises. *)
Lemma ask_model_dict (gm : pystr -> outcome) (u : pystr) (d : gmap pystr pyval) :
  ask_model gm u (PDict d) = Ok (CANT_RESPOND, PDict d)
  \/ exists e, ask_model gm u (PDict d) = Raise e.
Proof.
  unfold ask_model. destruct (build_prompt_dict u d) as [p ->]. cbn [bind].
  destruct (gm p) as [r|e]; [|right; eauto].
  destruct (nonempty (_extract_text_from_response r)) eqn:Et; [|left; reflexivity].
  right. exists re_error. rewrite apply_hard_rules_raises by exact Et. reflexivity.
Qed.

Lemma model_stage_dict (gm : pystr -> outcome) (u : pystr) (d : gmap pystr pyval) :
  exists r, model_stage gm u (PDict d) = Ok (r, PDict d) /\ nonempty r = true.
Proof.
  destruct (ask_model_dict gm u d) as [Ha|[e Ha]].
  - unfold model_stage. rewrite Ha. exists CANT_RESPOND.
    split; [reflexivity | vm_compute; reflexivity].
  - rewrite (model_stage_raised _ _ _ _ Ha).
    destruct (quick_rule_reply_dict u d) as [f ->]. cbn [bind].
    eexists. split; [reflexivity|]. apply or_else_nonempty, canned_for_nonempty.
Qed.

Lemma update_ok_inv (s s' : pyval) (u : pystr) :
  update_conversation_state s u = Ok s' ->
  exists d d', s = PDict d /\ s' = PDict d'.
Proof.
  intros Hu. destruct s; try discriminate Hu.
  destruct (update_dict d u) as (d' & Hd & _).
  rewrite Hd in Hu. injection Hu as <-. eauto.
Qed.

Lemma generate_reply_steps (gm : pystr -> outcome) (u : pystr) (s s' : pyval) :
  nonempty u = true ->
  update_conversation_state s u = Ok s' ->
  quick_stage u s' = Ok None ->
  generate_reply gm u s = model_stage gm u s'.
Proof.
  intros Hu Hs Hq. unfold generate_reply.
  rewrite Hu, Hs. cbn [negb bind]. rewrite Hq. reflexivity.
Qed.

(** ** The claims *)

(** C9. With the empty utterance [generate_reply] returns the canned
    "didn't catch that" reply, which is not empty, together with the state
    it was given, whatever that state is: nothing is extracted. *)
Theorem empty_utterance_keeps_state (gm : pystr -> outcome) (s : pyval) :
  generate_reply gm [] s = Ok (DIDNT_CATCH, s)
  /\ nonempty DIDNT_CATCH = true.
Proof. split; [reflexivity | vm_compute; reflexivity]. Qed.

(** C10. The booking branch of the rule responder is total: whatever the
    dict, when the lower-cased utterance contains one of 預約, 約, book, 改期
    [quick_rule_reply] returns a string that is not empty. *)
Theorem booking_branch_total (u : pystr) (d : gmap pystr pyval) :
  any_in rule_booking (lower u) = true ->
  exists r, quick_rule_reply u (PDict d) = Ok r /\ nonempty r = true.
Proof.
  intros Hb. unfold quick_rule_reply. cbn [py_get bind]. rewrite Hb.
  split_ifs; eexists; (split; [reflexivity|]); vm_compute; reflexivity.
Qed.

Lemma rule_booking_caseless : forallb (forallb caseless) rule_booking = true.
Proof. vm_compute. reflexivity. Qed.

Lemma rule_price_caseless : forallb (forallb caseless) rule_price = true.
Proof. vm_compute. reflexivity. Qed.

(** C5, as amended. Quick path coverage: when the utterance mentions one
    of the responder's booking keywords (預約, 約, book, 改期) and neither
    the treatment nor the booking time is set, the classifier answers true
    and the responder returns the question that asks which treatment is
    wanted, which is not empty. *)
Theorem quick_path_coverage (u : pystr) (s : pyval) :
  lower_keeps ->
  field_unset s (py "treatment") ->
  field_unset s (py "booking_time") ->
  mentions rule_booking u ->
  _should_use_quick_path u s = Ok true
  /\ quick_rule_reply u s = Ok ASK_TREATMENT
  /\ nonempty ASK_TREATMENT = true
  /\ contains (py "邊款療程") ASK_TREATMENT = true.
Proof.
  intros Hlow (t & Ht & Hft) (b & Hb & _) Hm.
  pose proof (mentions_found _ _ Hlow rule_booking_caseless Hm) as Hk.
  split; [|split; [|split]].
  - unfold _should_use_quick_path.
    rewrite (any_in_incl _ _ _ rule_booking_incl Hk). reflexivity.
  - unfold quick_rule_reply. rewrite Ht, Hb. cbn [bind].
    rewrite Hk, Hft. reflexivity.
  - vm_compute. reflexivity.
  - vm_compute. reflexivity.
Qed.

(** C7, as amended. With treatment "basic facial", an utterance that
    mentions one of the responder's price keywords (幾錢, 幾多錢, 價錢, 費用)
    and whose lower-casing contains no booking keyword gets the fixed reply
    for that treatment, which contains its price $480. *)
Theorem price_branch_basic (u : pystr) (s : pyval) :
  lower_keeps ->
  py_get s (py "treatment") = Ok (PStr (py "basic facial")) ->
  mentions rule_price u ->
  any_in rule_booking (lower u) = false ->
  quick_rule_reply u s = Ok PRICE_BASIC
  /\ contains (py "$480") PRICE_BASIC = true.
Proof.
  intros Hlow Ht Hm Hnb.
  pose proof (mentions_found _ _ Hlow rule_price_caseless Hm) as Hk.
  split; [|vm_compute; reflexivity].
  destruct (py_get_dict _ _ _ Ht) as (d & -> & Hd).
  unfold quick_rule_reply. cbn [py_get bind]. rewrite Hd, Hnb, Hk.
  reflexivity.
Qed.

(** C4. First write wins: a field (treatment, booking time) that is set in
    the state has the same value in the state the extractor returns,
    whatever the utterance. *)
Theorem first_write_wins (s : pyval) (u k : pystr) (v : pyval) :
  k = py "treatment" \/ k = py "booking_time" ->
  field_set s k v ->
  exists s', update_conversation_state s u = Ok s' /\ py_get s' k = Ok v.
Proof.
  intros _ [Hg Hv].
  destruct (py_get_dict _ _ _ Hg) as (d & -> & Hd).
  destruct (update_dict d u) as (d' & Hu & Hkeep).
  exists (PDict d'). split; [exact Hu|].
  cbn [py_get]. rewrite Hkeep by (rewrite Hd; exact Hv).
  rewrite Hd. reflexivity.
Qed.

(** C1, as amended. On every utterance, every dict and every behaviour of
    the model [generate_reply] returns normally, with a reply that is not
    empty and a dict. *)
Theorem generate_reply_total_on_dicts (gm : pystr -> outcome) (u : pystr)
    (d : gmap pystr pyval) :
  exists reply d',
    generate_reply gm u (PDict d) = Ok (reply, PDict d')
    /\ nonempty reply = true.
Proof.
  unfold generate_reply. destruct (nonempty u) eqn:Hu; cbn [negb].
  - destruct (update_dict d u) as (d' & -> & _). cbn [bind].
    destruct (quick_stage_dict u d') as (o & -> & Ho). cbn [bind].
    destruct o as [fast|].
    + exists fast, d'. split; [reflexivity | apply Ho; reflexivity].
    + destruct (model_stage_dict gm u d') as (r & -> & Hr). eauto.
  - exists DIDNT_CATCH, d. split; [reflexivity | vm_compute; reflexivity].
Qed.



(** C6. The consistency filter never gets to drop a sentence: the pattern
    of its sentence split does not compile, so that the filter raises
    [re.error] whenever the reply is not empty, whatever the state. *)
Theorem hard_rules_filter_raises (raw : pystr) (s : pyval) :
  nonempty raw = true ->
  re_split SENTENCE_PATTERN raw = Raise re_error
  /\ apply_hard_rules_to_reply raw s = Raise re_error.
Proof.
  intros Hr.
  assert (Hsplit : re_split SENTENCE_PATTERN raw = Raise re_error).
  { unfold re_split. rewrite sentence_pattern_rejected. reflexivity. }
  split; [exact Hsplit|].
  unfold apply_hard_rules_to_reply. rewrite Hr. cbn [negb].
  rewrite Hsplit. reflexivity.
Qed.

End Claims.

(* ================================================================== *)
(** * The speech sanitiser *)

(** ** Bracketed asides *)

Lemma open_not_close (c : N) : is_open c = true -> is_close c = false.
Proof.
  unfold is_open, is_close, mem_cp. intros Ho.
  apply existsb_exists in Ho as (x & Hx & He). apply N.eqb_eq in He. subst x.
  vm_compute in Hx. destruct Hx as [<-|[<-|[]]]; vm_compute; reflexivity.
Qed.

(** A span cut short by the next opening bracket or by the end of the text
    is no match either way. *)
Lemma span_end_before_open (n : nat) (r : pystr) (o : N) (rest : pystr) :
  is_open o = true -> span_end n (r ++ o :: rest) = span_end n r.
Proof.
  intros Ho. revert n. induction r as [|c r IH]; intros n.
  - cbn [app span_end]. rewrite (open_not_close o Ho), Ho. reflexivity.
  - cbn [app span_end]. destruct (is_close c); [reflexivity|].
    destruct (is_open c); [reflexivity|].
    destruct n; [reflexivity|]. rewrite IH. reflexivity.
Qed.

Lemma span_end_fits (n : nat) (r : pystr) (k : nat) :
  span_end n r = Some k -> (k <= List.length r)%nat.
Proof.
  revert n k. induction r as [|c r IH]; intros n k; cbn [span_end].
  - discriminate.
  - destruct (is_close c); [intros [= <-]; cbn; lia|].
    destruct (is_open c); [discriminate|].
    destruct n; [discriminate|].
    destruct (span_end n r) as [k'|] eqn:E; [|discriminate].
    intros [= <-]. specialize (IH _ _ E). cbn. lia.
Qed.

Lemma span_end_aside (n : nat) (mid : pystr) (c : N) (post : pystr) :
  forallb (fun x => negb (is_bracket x)) mid = true ->
  (List.length mid <= n)%nat -> is_close c = true ->
  span_end n (mid ++ c :: post) = Some (S (List.length mid)).
Proof.
  revert n. induction mid as [|x mid IH]; intros n Hm Hn Hc.
  - cbn [app span_end]. rewrite Hc. reflexivity.
  - cbn [forallb] in Hm. apply andb_true_iff in Hm as [Hx Hm].
    unfold is_bracket in Hx. apply negb_true_iff, orb_false_iff in Hx as [Hxo Hxc].
    cbn [app span_end]. rewrite Hxc, Hxo.
    destruct n; [cbn in Hn; lia|].
    rewrite IH; [reflexivity | exact Hm | cbn in Hn; lia | exact Hc].
Qed.

Lemma sub_parens_skip (x y : pystr) :
  sub_parens (List.length x) (x ++ y) = sub_parens 0 y.
Proof. induction x as [|c x IH]; [reflexivity | exact IH]. Qed.

Lemma sub_parens_skip_cons (mid : pystr) (c : N) (post : pystr) :
  sub_parens (S (List.length mid)) (mid ++ c :: post) = sub_parens 0 post.
Proof.
  replace (mid ++ c :: post) with ((mid ++ [c]) ++ post)
    by (rewrite <- app_assoc; reflexivity).
  replace (S (List.length mid)) with (List.length (mid ++ [c]))
    by (rewrite length_app; cbn; lia).
  apply sub_parens_skip.
Qed.

(** The bracket pass deletes an aside and treats what stands before and
    after it on their own. *)
Lemma sub_parens_aside (pre a post : pystr) :
  aside a ->
  sub_parens 0 (pre ++ a ++ post) = sub_parens 0 pre ++ sub_parens 0 post.
Proof.
  intros (o & mid & c & -> & Ho & Hc & Hmid & Hlen).
  replace ((o :: mid ++ [c]) ++ post) with (o :: mid ++ c :: post)
    by (cbn [app]; rewrite <- app_assoc; reflexivity).
  assert (G : forall pre skip, (skip <= List.length pre)%nat ->
            sub_parens skip (pre ++ o :: mid ++ c :: post)
            = sub_parens skip pre ++ sub_parens 0 post).
  { clear pre. induction pre as [|p pre IH]; intros skip Hs.
    - cbn in Hs. assert (skip = 0%nat) as -> by lia.
      cbn [app sub_parens]. rewrite Ho.
      rewrite (span_end_aside 40 mid c post Hmid Hlen Hc).
      apply sub_parens_skip_cons.
    - cbn [app sub_parens]. destruct skip as [|k].
      + rewrite (span_end_before_open 40 pre o _ Ho).
        destruct (is_open p); [|rewrite IH by lia; reflexivity].
        destruct (span_end 40 pre) as [k|] eqn:E.
        * apply IH. eapply span_end_fits, E.
        * rewrite IH by lia. reflexivity.
      + apply IH. cbn in Hs. lia. }
  apply G. lia.
Qed.

Lemma sanitize_factor (text : pystr) :
  sanitize_tts_text text = after_parens (sub_parens 0 text).
Proof. destruct text; reflexivity. Qed.

(** ** What each pass lets through *)

Lemma In_lstrip (c : N) (s : pystr) : In c (lstrip s) -> In c s.
Proof.
  induction s as [|x s IH]; cbn [lstrip]; [tauto|].
  destruct (is_space x); [right; auto | auto].
Qed.

Lemma In_rstrip (c : N) (s : pystr) : In c (rstrip s) -> In c s.
Proof.
  induction s as [|x s IH]; cbn [rstrip]; [tauto|].
  destruct (rstrip s) as [|y r'].
  - destruct (is_space x); cbn; tauto.
  - intros [<-|Hin]; [left; reflexivity | right; auto].
Qed.

Lemma In_strip (c : N) (s : pystr) : In c (strip s) -> In c s.
Proof. intros Hc. apply In_lstrip, In_rstrip, Hc. Qed.

Lemma In_sub_spaces (c : N) (f : bool) (s : pystr) :
  In c (sub_spaces f s) -> In c s \/ c = 32.
Proof.
  revert f. induction s as [|x s IH]; intros f; cbn [sub_spaces]; [tauto|].
  destruct (is_space x).
  - intros Hin. apply in_app_or in Hin as [Hin|Hin].
    + destruct f; cbn in Hin; [tauto|]. destruct Hin as [<-|[]]. auto.
    + destruct (IH _ Hin); [left; right; assumption | auto].
  - intros [<-|Hin]; [left; left; reflexivity|].
    destruct (IH _ Hin); [left; right; assumption | auto].
Qed.

Lemma In_sub_slashes (c : N) (k : nat) (f : bool) (s : pystr) :
  In c (sub_slashes k f s) -> In c s \/ c = 32.
Proof.
  revert k f. induction s as [|x s IH]; intros k f; cbn [sub_slashes]; [tauto|].
  destruct k as [|k].
  - destruct (slash_token_len (x :: s)).
    + intros Hin. apply in_app_or in Hin as [Hin|Hin].
      * destruct f; cbn in Hin; [tauto|]. destruct Hin as [<-|[]]. auto.
      * destruct (IH _ _ Hin); [left; right; assumption | auto].
    + intros [<-|Hin]; [left; left; reflexivity|].
      destruct (IH _ _ Hin); [left; right; assumption | auto].
  - intros Hin. destruct (IH _ _ Hin); [left; right; assumption | auto].
Qed.

Lemma In_remove_cp (c x : N) (s : pystr) : In c (remove_cp x s) -> In c s /\ c <> x.
Proof.
  unfold remove_cp. rewrite <- !list_elem_of_In, list_elem_of_filter. tauto.
Qed.

Lemma In_sub_dashes (c : N) (s : pystr) :
  In c (sub_dashes s) -> In c s /\ is_dash c = false.
Proof.
  unfold sub_dashes. rewrite <- !list_elem_of_In, list_elem_of_filter. tauto.
Qed.

(** Neither quotes, asterisks nor dashes are left. *)
Lemma after_parens_symbols (c : N) (text : pystr) :
  In c (after_parens text) ->
  c <> ASTERISK /\ c <> DQUOTE /\ c <> SQUOTE /\ is_dash c = false.
Proof.
  unfold after_parens. intros Hin.
  apply In_strip, In_sub_spaces in Hin as [Hin| ->];
    [|repeat split; vm_compute; congruence].
  apply In_sub_slashes in Hin as [Hin| ->];
    [|repeat split; vm_compute; congruence].
  apply In_strip, In_sub_dashes in Hin as [Hin Hd].
  apply In_remove_cp in Hin as [Hin H1].
  apply In_remove_cp in Hin as [Hin H2].
  apply In_remove_cp in Hin as [Hin H3]. auto.
Qed.

(** ** Slash tokens *)

Lemma slash_tokens_spacefree : forallb spacefree slash_tokens = true.
Proof. vm_compute. reflexivity. Qed.

Lemma slash_tokens_nonempty :
  forallb (fun tok => match tok with [] => false | _ => true end) slash_tokens = true.
Proof. vm_compute. reflexivity. Qed.

Lemma mem_cp_space (c : N) (cls : pystr) :
  forallb (fun c => negb (is_space c)) cls = true ->
  mem_cp c cls = true -> is_space c = false.
Proof.
  intros Hcls Hm. unfold mem_cp in Hm.
  apply existsb_exists in Hm as (x & Hx & He). apply N.eqb_eq in He. subst x.
  rewrite forallb_forall in Hcls. apply negb_true_iff, Hcls, Hx.
Qed.

Lemma match_classes_app (tok : list pystr) (s w : pystr) :
  match_classes tok s = true -> match_classes tok (s ++ w) = true.
Proof.
  revert s. induction tok as [|cls tok IH]; intros s; [reflexivity|].
  destruct s as [|c s]; cbn [match_classes app]; [discriminate|].
  intros Hm. apply andb_true_iff in Hm as [Hc Hr].
  rewrite Hc, (IH _ Hr). reflexivity.
Qed.

Lemma slash_token_len_none (s : pystr) :
  slash_token_len s = None <->
  forall tok, In tok slash_tokens -> match_classes tok s = false.
Proof.
  unfold slash_token_len. generalize slash_tokens as toks.
  induction toks as [|t toks IH]; cbn [List.find].
  - split; [intros _ tok [] | reflexivity].
  - destruct (match_classes t s) eqn:Et.
    + split; [discriminate|]. intros Hall.
      rewrite (Hall t (or_introl eq_refl)) in Et. discriminate.
    + rewrite IH. split.
      * intros Hall tok [<-|Hin]; [exact Et | apply Hall, Hin].
      * intros Hall tok Hin. apply Hall. right. exact Hin.
Qed.

(** White space starts no token. *)
Lemma slash_token_len_space (c : N) (s : pystr) :
  is_space c = true -> slash_token_len (c :: s) = None.
Proof.
  intros Hc. apply slash_token_len_none. intros tok Hin.
  pose proof slash_tokens_spacefree as Hsf.
  rewrite forallb_forall in Hsf. specialize (Hsf _ Hin).
  destruct tok as [|cls tok].
  - pose proof slash_tokens_nonempty as Hne.
    rewrite forallb_forall in Hne. specialize (Hne _ Hin). discriminate.
  - cbn [match_classes]. cbn [spacefree forallb] in Hsf.
    apply andb_true_iff in Hsf as [Hcls _].
    destruct (mem_cp c cls) eqn:Em; [|reflexivity].
    rewrite (mem_cp_space _ _ Hcls Em) in Hc. discriminate.
Qed.

Lemma slash_token_len_nil : slash_token_len [] = None.
Proof. vm_compute. reflexivity. Qed.

(** A token read in the output of the slash pass was in its input. *)
Lemma match_classes_sub_slashes (tok : list pystr) (r : pystr) :
  spacefree tok = true ->
  match_classes tok (sub_slashes 0 false r) = true ->
  match_classes tok r = true.
Proof.
  revert r. induction tok as [|cls tok IH]; intros r Hsf; [reflexivity|].
  cbn [spacefree forallb] in Hsf. apply andb_true_iff in Hsf as [Hcls Hsf].
  destruct r as [|c r]; cbn [sub_slashes]; [discriminate|].
  destruct (slash_token_len (c :: r)) as [n|].
  - cbn [app match_classes]. intros Hm. apply andb_true_iff in Hm as [Hm _].
    apply (mem_cp_space _ _ Hcls) in Hm. discriminate.
  - cbn [match_classes]. intros Hm. apply andb_true_iff in Hm as [Hc Hr].
    rewrite Hc, (IH _ Hsf Hr). reflexivity.
Qed.

Lemma match_classes_sub_spaces (tok : list pystr) (r : pystr) :
  spacefree tok = true ->
  match_classes tok (sub_spaces false r) = true ->
  match_classes tok r = true.
Proof.
  revert r. induction tok as [|cls tok IH]; intros r Hsf; [reflexivity|].
  cbn [spacefree forallb] in Hsf. apply andb_true_iff in Hsf as [Hcls Hsf].
  destruct r as [|c r]; cbn [sub_spaces]; [discriminate|].
  destruct (is_space c) eqn:Ec.
  - cbn [app match_classes]. intros Hm. apply andb_true_iff in Hm as [Hm _].
    apply (mem_cp_space _ _ Hcls) in Hm. discriminate.
  - cbn [match_classes]. intros Hm. apply andb_true_iff in Hm as [Hc Hr].
    rewrite Hc, (IH _ Hsf Hr). reflexivity.
Qed.

(** If a pass that copies [c] keeps no token the input did not have, then
    no token starts at [c] in the output when none did in the input. *)
Lemma slash_token_len_transfer (g : pystr -> pystr) (c : N) (r : pystr) :
  (forall tok, spacefree tok = true ->
     match_classes tok (g r) = true -> match_classes tok r = true) ->
  slash_token_len (c :: r) = None -> slash_token_len (c :: g r) = None.
Proof.
  intros Hg Hn. rewrite slash_token_len_none in Hn |- *.
  intros tok Hin. specialize (Hn tok Hin).
  pose proof slash_tokens_spacefree as Hsf.
  rewrite forallb_forall in Hsf. specialize (Hsf _ Hin).
  destruct tok as [|cls tok]; [exact Hn|].
  cbn [match_classes] in Hn |- *.
  destruct (mem_cp c cls); [|reflexivity]. cbn [andb] in Hn |- *.
  destruct (match_classes tok (g r)) eqn:Eg; [|reflexivity].
  cbn [spacefree forallb] in Hsf. apply andb_true_iff in Hsf as [_ Hsf].
  rewrite (Hg tok Hsf Eg) in Hn. discriminate.
Qed.

Lemma slash_free_nil : slash_free [].
Proof.
  intros a b Hab. symmetry in Hab. apply app_eq_nil in Hab as [_ ->].
  exact slash_token_len_nil.
Qed.

Lemma slash_free_cons (c : N) (r : pystr) :
  slash_token_len (c :: r) = None -> slash_free r -> slash_free (c :: r).
Proof.
  intros Hc Hr a b Hab. destruct a as [|x a].
  - cbn in Hab. subst b. exact Hc.
  - cbn in Hab. injection Hab as _ Hab. eapply Hr, Hab.
Qed.

Lemma slash_free_app_r (a b : pystr) : slash_free (a ++ b) -> slash_free b.
Proof.
  intros Hf x y Hxy. apply (Hf (a ++ x) y). rewrite Hxy, app_assoc. reflexivity.
Qed.

Lemma slash_free_app_l (a w : pystr) : slash_free (a ++ w) -> slash_free a.
Proof.
  intros Hf x y Hxy. specialize (Hf x (y ++ w)).
  rewrite Hxy, <- app_assoc in Hf. specialize (Hf eq_refl).
  rewrite slash_token_len_none in Hf |- *. intros tok Hin.
  specialize (Hf tok Hin).
  destruct (match_classes tok y) eqn:Ey; [|reflexivity].
  rewrite (match_classes_app _ _ w Ey) in Hf. discriminate.
Qed.

Lemma sub_slashes_free (s : pystr) (k : nat) (f : bool) :
  slash_free (sub_slashes k f s).
Proof.
  revert k f. induction s as [|c r IH]; intros k f; cbn [sub_slashes].
  - exact slash_free_nil.
  - destruct k as [|k]; [|apply IH].
    destruct (slash_token_len (c :: r)) as [n|] eqn:Et.
    + destruct f; cbn [app]; [apply IH|].
      apply slash_free_cons; [|apply IH].
      apply slash_token_len_space. vm_compute. reflexivity.
    + apply slash_free_cons; [|apply IH].
      apply (slash_token_len_transfer (sub_slashes 0 false)); [|exact Et].
      intros tok. apply match_classes_sub_slashes.
Qed.

Lemma sub_spaces_free (s : pystr) (f : bool) :
  slash_free s -> slash_free (sub_spaces f s).
Proof.
  revert f. induction s as [|c r IH]; intros f Hs; cbn [sub_spaces].
  - exact slash_free_nil.
  - assert (Hr : slash_free r) by exact (slash_free_app_r [c] r Hs).
    destruct (is_space c) eqn:Ec.
    + destruct f; cbn [app]; [apply IH, Hr|].
      apply slash_free_cons; [|apply IH, Hr].
      apply slash_token_len_space. vm_compute. reflexivity.
    + apply slash_free_cons; [|apply IH, Hr].
      apply (slash_token_len_transfer (sub_spaces false)).
      * intros tok. apply match_classes_sub_spaces.
      * apply (Hs [] (c :: r)). reflexivity.
Qed.

Lemma lstrip_suffix (s : pystr) : exists a, s = a ++ lstrip s.
Proof.
  induction s as [|c r [a IH]]; cbn [lstrip]; [exists []; reflexivity|].
  destruct (is_space c).
  - exists (c :: a). cbn. f_equal. exact IH.
  - exists []. reflexivity.
Qed.

Lemma rstrip_prefix (s : pystr) : exists w, s = rstrip s ++ w.
Proof.
  induction s as [|c r [w IH]]; cbn [rstrip]; [exists []; reflexivity|].
  destruct (rstrip r) as [|y r'].
  - destruct (is_space c).
    + exists (c :: r). reflexivity.
    + exists w. cbn in IH |- *. f_equal. exact IH.
  - exists w. cbn in IH |- *. f_equal. exact IH.
Qed.

Lemma strip_free (s : pystr) : slash_free s -> slash_free (strip s).
Proof.
  intros Hs. unfold strip.
  destruct (lstrip_suffix s) as [a Ha].
  destruct (rstrip_prefix (lstrip s)) as [w Hw].
  rewrite Ha in Hs. apply slash_free_app_r in Hs.
  rewrite Hw in Hs. apply slash_free_app_l in Hs. exact Hs.
Qed.

(** No slash token is left. *)
Lemma after_parens_slash_free (text : pystr) : slash_free (after_parens text).
Proof.
  unfold after_parens. apply strip_free, sub_spaces_free, sub_slashes_free.
Qed.

Lemma slash_words_are_tokens :
  forall kw rest, In kw slash_words -> slash_token_len (kw ++ rest) <> None.
Proof.
  intros kw rest Hin. unfold slash_words in Hin. cbn [In] in Hin.
  repeat (destruct Hin as [<-|Hin]; [vm_compute; discriminate|]).
  destruct Hin.
Qed.

Lemma slash_free_words (s : pystr) :
  slash_free s -> any_in slash_words s = false.
Proof.
  intros Hs. destruct (any_in slash_words s) eqn:Ea; [|reflexivity].
  apply existsb_exists in Ea as (kw & Hin & Hc).
  apply contains_inv in Hc as (a & b & ->).
  destruct (slash_words_are_tokens kw b Hin). apply (Hs a (kw ++ b)). reflexivity.
Qed.

(** ** White space *)

Lemma sub_spaces_single (s : pystr) (f : bool) :
  single_spaced (sub_spaces f s)
  /\ (f = true -> starts_solid (sub_spaces f s)).
Proof.
  revert f. induction s as [|c r IH]; intros f; cbn [sub_spaces].
  - split; intros; exact I.
  - destruct (is_space c) eqn:Ec.
    + destruct (IH true) as [Ht Hs]. destruct f; cbn [app].
      * split; [exact Ht | intros _; apply Hs; reflexivity].
      * split; [|discriminate].
        cbn [single_spaced]. split; [|exact Ht].
        intros _. split; [reflexivity | apply Hs; reflexivity].
    + destruct (IH false) as [Ht _]. split.
      * cbn [single_spaced]. split; [|exact Ht].
        intros Hc. rewrite Hc in Ec. discriminate.
      * intros _. exact Ec.
Qed.

Lemma single_spaced_app_r (a b : pystr) :
  single_spaced (a ++ b) -> single_spaced b.
Proof.
  induction a as [|c a IH]; cbn [app single_spaced]; [auto|].
  intros [_ Hr]. auto.
Qed.

Lemma starts_solid_app_l (a w : pystr) :
  starts_solid (a ++ w) -> starts_solid a.
Proof. destruct a; cbn; auto. Qed.

Lemma single_spaced_app_l (a w : pystr) :
  single_spaced (a ++ w) -> single_spaced a.
Proof.
  induction a as [|c a IH]; cbn [app single_spaced]; [auto|].
  intros [Hc Hr]. split; [|auto].
  intros Hs. destruct (Hc Hs) as [-> Hn]. split; [reflexivity|].
  eapply starts_solid_app_l, Hn.
Qed.

Lemma strip_single (s : pystr) : single_spaced s -> single_spaced (strip s).
Proof.
  intros Hs. unfold strip.
  destruct (lstrip_suffix s) as [a Ha].
  destruct (rstrip_prefix (lstrip s)) as [w Hw].
  rewrite Ha in Hs. apply single_spaced_app_r in Hs.
  rewrite Hw in Hs. apply single_spaced_app_l in Hs. exact Hs.
Qed.

Lemma lstrip_solid (s : pystr) : starts_solid (lstrip s).
Proof.
  induction s as [|c r IH]; cbn [lstrip]; [exact I|].
  destruct (is_space c) eqn:Ec; [exact IH | exact Ec].
Qed.

Lemma strip_solid (s : pystr) : starts_solid (strip s).
Proof.
  unfold strip. pose proof (lstrip_solid s) as Hl.
  destruct (rstrip_prefix (lstrip s)) as [w Hw].
  rewrite Hw in Hl. eapply starts_solid_app_l, Hl.
Qed.

(** The last code point of [rstrip s] is no white space. *)
Lemma rstrip_last (s a : pystr) (c : N) :
  rstrip s = a ++ [c] -> is_space c = false.
Proof.
  revert a. induction s as [|x r IH]; intros a; cbn [rstrip].
  - intros Hnil. destruct a; discriminate.
  - destruct (rstrip r) as [|y r'] eqn:Er.
    + destruct (is_space x) eqn:Ex.
      * intros Hnil. destruct a; discriminate.
      * intros Heq. destruct a as [|z a].
        -- injection Heq as <-. exact Ex.
        -- destruct a; discriminate.
    + intros Heq. destruct a as [|z a].
      * discriminate.
      * injection Heq as _ Heq. eapply IH, Heq.
Qed.

(** In the output of [strip] after the white-space pass, a white-space code
    point is a plain space with text on both sides, the next code point
    being no white space. *)
Lemma strip_sub_spaces_shape (s a b : pystr) (c : N) :
  strip (sub_spaces false s) = a ++ c :: b -> is_space c = true ->
  c = 32 /\ a <> [] /\ exists c' b', b = c' :: b' /\ is_space c' = false.
Proof.
  intros Heq Hc.
  pose proof (strip_single _ (proj1 (sub_spaces_single s false))) as Ht.
  pose proof (strip_solid (sub_spaces false s)) as Hh.
  rewrite Heq in Ht, Hh.
  apply single_spaced_app_r in Ht. cbn [single_spaced] in Ht.
  destruct Ht as [Hcs _]. destruct (Hcs Hc) as [-> Hsolid].
  split; [reflexivity|]. split.
  - intros ->. cbn in Hh. rewrite Hh in Hc. discriminate.
  - destruct b as [|c' b'].
    + unfold strip in Heq. apply rstrip_last in Heq.
      rewrite Heq in Hc. discriminate.
    + exists c', b'. split; [reflexivity | exact Hsolid].
Qed.

(** C8. The speech sanitiser: on the sample text the aside goes and no
    bracket is left; every aside (an opening bracket of either width, at
    most forty code points that are no brackets, a closing bracket of either
    width) is deleted, what stands before and after being treated on its
    own; no asterisk, quote or dash is left; no slash token (斜線, slash in
    any case, ／, \, /) starts anywhere in the result, so that none of
    these words and signs occurs in it; and every white space left is one
    plain space between two code points that are none. *)
Theorem sanitize_tts_text_cleans :
  (sanitize_tts_text (py "你好(慢慢講)") = py "你好"
   /\ forallb (fun c => negb (is_bracket c))
        (sanitize_tts_text (py "你好(慢慢講)")) = true)
  /\ (forall pre a post, aside a ->
        sanitize_tts_text (pre ++ a ++ post)
        = after_parens (sub_parens 0 pre ++ sub_parens 0 post))
  /\ (forall text, sanitize_tts_text text = after_parens (sub_parens 0 text))
  /\ (forall text c, In c (sanitize_tts_text text) ->
        c <> ASTERISK /\ c <> DQUOTE /\ c <> SQUOTE /\ is_dash c = false)
  /\ (forall text, slash_free (sanitize_tts_text text)
                   /\ any_in slash_words (sanitize_tts_text text) = false)
  /\ (forall text a c b,
        sanitize_tts_text text = a ++ c :: b -> is_space c = true ->
        c = 32 /\ a <> []
        /\ exists c' b', b = c' :: b' /\ is_space c' = false).
Proof.
  split; [split; vm_compute; reflexivity|].
  split.
  { intros pre a post Ha.
    rewrite sanitize_factor, (sub_parens_aside pre a post Ha). reflexivity. }
  split; [exact sanitize_factor|].
  split.
  { intros text c. rewrite sanitize_factor. apply after_parens_symbols. }
  split.
  { intros text. rewrite sanitize_factor.
    split; [|apply slash_free_words]; apply after_parens_slash_free. }
  intros text a c b. rewrite sanitize_factor. unfold after_parens.
  apply strip_sub_spaces_shape.
Qed.

(* ================================================================== *)
(** * The claims on sample inputs *)

Lemma empty_utterance_keeps_state_witness :
  generate_reply (fun _ => Failed ProviderError) [] (PList [])
  = Ok (DIDNT_CATCH, PList []).
Proof. apply empty_utterance_keeps_state. Defined.

Lemma booking_branch_total_witness :
  exists r, quick_rule_reply (py "我想BOOK聽日") booked_basic = Ok r
            /\ nonempty r = true.
Proof. apply booking_branch_total. vm_compute. reflexivity. Defined.

Lemma quick_path_coverage_witness :
  _should_use_quick_path (py "我想預約") reset_memory = Ok true
  /\ quick_rule_reply (py "我想預約") reset_memory = Ok ASK_TREATMENT
  /\ nonempty ASK_TREATMENT = true
  /\ contains (py "邊款療程") ASK_TREATMENT = true.
Proof.
  apply quick_path_coverage.
  - exact text_lower_keeps.
  - exists PNone. split; vm_compute; reflexivity.
  - exists PNone. split; vm_compute; reflexivity.
  - left. vm_compute. reflexivity.
Defined.

Lemma price_branch_basic_witness :
  quick_rule_reply (py "basic facial幾錢呀") chose_basic = Ok PRICE_BASIC
  /\ contains (py "$480") PRICE_BASIC = true.
Proof.
  apply price_branch_basic.
  - exact text_lower_keeps.
  - vm_compute. reflexivity.
  - left. vm_compute. reflexivity.
  - vm_compute. reflexivity.
Defined.

(** C7 as stated fails: a price keyword next to a booking keyword is
    answered by the booking branch, whose reply names no price. *)
Lemma price_claim_fails_with_booking :
  py_get chose_basic (py "treatment") = Ok (PStr (py "basic facial"))
  /\ any_in rule_price (py "預約幾錢") = true
  /\ exists reply,
       quick_rule_reply (py "預約幾錢") chose_basic = Ok reply
       /\ contains (py "$480") reply = false.
Proof.
  split; [vm_compute; reflexivity|]. split; [vm_compute; reflexivity|].
  eexists. split; vm_compute; reflexivity.
Qed.

Lemma first_write_wins_witness :
  exists s',
    update_conversation_state booked_basic (py "改做深層清潔，後日五點") = Ok s'
    /\ py_get s' (py "treatment") = Ok (PStr (py "basic facial")).
Proof.
  apply first_write_wins.
  - left. reflexivity.
  - split; vm_compute; reflexivity.
Defined.

(** C1 as stated fails: a state that is valid JSON but no object makes
    [generate_reply] raise. *)
Lemma generate_reply_raises_on_list :
  generate_reply (fun _ => Failed FuturesTimeoutError) (py "你好") (PList [])
  = Raise AttributeError.
Proof. vm_compute. reflexivity. Qed.



Lemma hard_rules_filter_raises_witness :
  re_split SENTENCE_PATTERN (py "你想做咩療程？我哋十一點開門。") = Raise re_error
  /\ apply_hard_rules_to_reply (py "你想做咩療程？我哋十一點開門。") chose_basic
     = Raise re_error.
Proof. apply hard_rules_filter_raises. vm_compute. reflexivity. Defined.

(** Given the two sentences of that reply, the rest of the filter drops the
    one that asks for the treatment again and keeps the other; given only
    the first, it returns the empty string. *)
Lemma after_split_on_sample :
  after_split [py "你想做咩療程？"; py "我哋十一點開門。"] chose_basic
  = Ok (py "我哋十一點開門。")
  /\ after_split [py "你想做咩療程？"] chose_basic = Ok [].
Proof. split; vm_compute; reflexivity. Qed.

Lemma sanitize_tts_text_cleans_witness :
  sanitize_tts_text (py "你好" ++ py "(慢慢講)" ++ py "，再見")
  = after_parens (sub_parens 0 (py "你好") ++ sub_parens 0 (py "，再見")).
Proof.
  destruct sanitize_tts_text_cleans as (_ & Haside & _).
  apply Haside.
  exists 40, (py "慢慢講"), 41.
  repeat split; vm_compute; (reflexivity || lia).
Defined.

(* ================================================================== *)
(** * Further properties of the engine *)

(** ** More on white space *)

Lemma lstrip_keeps_solid (c : N) (s : pystr) :
  In c s -> is_space c = false -> In c (lstrip s).
Proof.
  induction s as [|x s IH]; cbn [lstrip In]; [tauto|].
  intros [<-|Hin] Hc.
  - rewrite Hc. left. reflexivity.
  - destruct (is_space x); [auto | right; exact Hin].
Qed.

Lemma rstrip_keeps_solid (c : N) (s : pystr) :
  In c s -> is_space c = false -> In c (rstrip s).
Proof.
  induction s as [|x s IH]; cbn [rstrip In]; [tauto|].
  intros [<-|Hin] Hc.
  - destruct (rstrip s); [rewrite Hc|]; left; reflexivity.
  - specialize (IH Hin Hc). destruct (rstrip s); [destruct IH|].
    right. exact IH.
Qed.

Lemma strip_keeps_solid (c : N) (s : pystr) :
  In c s -> is_space c = false -> In c (strip s).
Proof.
  intros Hin Hc. apply rstrip_keeps_solid; [|exact Hc].
  apply lstrip_keeps_solid; assumption.
Qed.

Lemma lstrip_fixed (s : pystr) : starts_solid s -> lstrip s = s.
Proof.
  destruct s as [|c s]; cbn [lstrip starts_solid]; [reflexivity|].
  intros ->. reflexivity.
Qed.

Lemma ends_solid_tail (c : N) (s : pystr) :
  ends_solid (c :: s) -> s <> [] -> ends_solid s.
Proof.
  intros He _ a x Hs. apply (He (c :: a) x). rewrite Hs. reflexivity.
Qed.

Lemma rstrip_fixed (s : pystr) : ends_solid s -> rstrip s = s.
Proof.
  induction s as [|c s IH]; intros He; cbn [rstrip]; [reflexivity|].
  destruct s as [|y s].
  - cbn [rstrip]. rewrite (He [] c eq_refl). reflexivity.
  - rewrite IH by (eapply ends_solid_tail; [exact He | discriminate]).
    reflexivity.
Qed.

Lemma rstrip_ends_solid (s : pystr) : ends_solid (rstrip s).
Proof. intros a c Heq. eapply rstrip_last, Heq. Qed.

Lemma strip_ends_solid (s : pystr) : ends_solid (strip s).
Proof. apply rstrip_ends_solid. Qed.

Lemma strip_fixed (s : pystr) : starts_solid s -> ends_solid s -> strip s = s.
Proof.
  intros Hs He. unfold strip. rewrite (lstrip_fixed s Hs). apply rstrip_fixed, He.
Qed.

Lemma strip_idempotent (s : pystr) : strip (strip s) = strip s.
Proof. apply strip_fixed; [apply strip_solid | apply strip_ends_solid]. Qed.

Lemma length_lstrip (s : pystr) : (List.length (lstrip s) <= List.length s)%nat.
Proof.
  induction s as [|c s IH]; cbn [lstrip]; [lia|].
  destruct (is_space c); cbn [List.length]; lia.
Qed.

Lemma length_rstrip (s : pystr) : (List.length (rstrip s) <= List.length s)%nat.
Proof.
  induction s as [|c s IH]; cbn [rstrip]; [lia|].
  destruct (rstrip s); [destruct (is_space c)|]; cbn [List.length] in *; lia.
Qed.

Lemma length_strip (s : pystr) : (List.length (strip s) <= List.length s)%nat.
Proof.
  unfold strip. pose proof (length_rstrip (lstrip s)). pose proof (length_lstrip s). lia.
Qed.

Section Extractor.
Context `{PyBuiltins}.

(** ** The extractor *)

Lemma update_as_map (d : gmap pystr pyval) (u : pystr) :
  update_conversation_state (PDict d) u
  = Ok (PDict (with_time u (with_treatment u d))).
Proof.
  unfold update_conversation_state, with_time, with_treatment, detected_treatment.
  cbn [py_copy bind py_get].
  destruct (truthy (default PNone (d !! py "treatment"))); cbn [negb bind py_get].
  - destruct (truthy (default PNone (d !! py "booking_time"))); cbn [negb];
      [reflexivity|]. destruct (any_in time_keywords u); reflexivity.
  - repeat match goal with
           | |- context [if ?b then py_setitem _ _ _ else _] => destruct b
           end; cbn [py_setitem bind py_get];
      match goal with
      | |- context [truthy ?v] => destruct (truthy v)
      end; cbn [negb]; try reflexivity;
      destruct (any_in time_keywords u); reflexivity.
Qed.

Lemma detected_in_catalogue (u t : pystr) :
  detected_treatment u = Some t -> In t treatments.
Proof.
  unfold detected_treatment, treatments.
  repeat match goal with
         | |- context [if ?b then _ else _] => destruct b
         end; intros [= <-]; cbn [In]; tauto.
Qed.

Lemma treatments_nonempty (t : pystr) : In t treatments -> nonempty t = true.
Proof.
  unfold treatments. cbn [In].
  intros [<-|[<-|[<-|[<-|[]]]]]; vm_compute; reflexivity.
Qed.

Lemma time_keywords_solid :
  forallb (fun k => nonempty k && forallb (fun c => negb (is_space c)) k)
    time_keywords = true.
Proof. vm_compute. reflexivity. Qed.

(** An utterance with a time keyword is not blank. *)
Lemma time_keyword_not_blank (u : pystr) :
  any_in time_keywords u = true -> nonempty (strip u) = true.
Proof.
  intros Ha. apply existsb_exists in Ha as (k & Hin & Hc).
  pose proof time_keywords_solid as Hs. rewrite forallb_forall in Hs.
  specialize (Hs k Hin). apply andb_true_iff in Hs as [Hne Hsolid].
  destruct k as [|c k]; [discriminate|].
  cbn [forallb] in Hsolid. apply andb_true_iff in Hsolid as [Hc0 _].
  apply negb_true_iff in Hc0.
  apply contains_inv in Hc as (a & b & ->).
  assert (Hin' : In c (strip (a ++ (c :: k) ++ b))).
  { apply strip_keeps_solid; [|exact Hc0].
    apply in_or_app. right. left. reflexivity. }
  destruct (strip (a ++ (c :: k) ++ b)); [destruct Hin' | reflexivity].
Qed.

Lemma nonempty_take (n : nat) (s : pystr) :
  nonempty s = true -> (0 < n)%nat -> nonempty (take n s) = true.
Proof. destruct s, n; cbn; intros; (reflexivity || discriminate || lia). Qed.

Lemma with_treatment_time_key (u : pystr) (d : gmap pystr pyval) :
  with_treatment u d !! py "booking_time" = d !! py "booking_time".
Proof.
  unfold with_treatment.
  destruct (truthy _); [reflexivity|].
  destruct (detected_treatment u); [|reflexivity].
  apply lookup_insert_ne, keys_differ.
Qed.

Lemma with_time_treatment_key (u : pystr) (d : gmap pystr pyval) :
  with_time u d !! py "treatment" = d !! py "treatment".
Proof.
  unfold with_time.
  destruct (truthy _); [reflexivity|].
  destruct (any_in time_keywords u); [|reflexivity].
  apply lookup_insert_ne. intros Heq. apply keys_differ. symmetry. exact Heq.
Qed.

Lemma with_treatment_fixed (u : pystr) (d : gmap pystr pyval) :
  truthy (default PNone (d !! py "treatment")) = true
  \/ detected_treatment u = None ->
  with_treatment u d = d.
Proof.
  unfold with_treatment. intros [-> | ->]; [reflexivity|].
  destruct (truthy _); reflexivity.
Qed.

Lemma with_time_fixed (u : pystr) (d : gmap pystr pyval) :
  truthy (default PNone (d !! py "booking_time")) = true
  \/ any_in time_keywords u = false ->
  with_time u d = d.
Proof.
  unfold with_time. intros [-> | ->]; [reflexivity|].
  destruct (truthy _); reflexivity.
Qed.

(** After the treatment step the field is set or nothing was detected. *)
Lemma with_treatment_settled (u : pystr) (d : gmap pystr pyval) :
  truthy (default PNone (with_treatment u d !! py "treatment")) = true
  \/ detected_treatment u = None.
Proof.
  unfold with_treatment.
  destruct (truthy (default PNone (d !! py "treatment"))) eqn:Et; [left; exact Et|].
  destruct (detected_treatment u) as [t|] eqn:Ed; [left | right; reflexivity].
  rewrite lookup_insert_eq. cbn [default truthy].
  apply treatments_nonempty, detected_in_catalogue with (u := u), Ed.
Qed.

Lemma with_time_settled (u : pystr) (d : gmap pystr pyval) :
  truthy (default PNone (with_time u d !! py "booking_time")) = true
  \/ any_in time_keywords u = false.
Proof.
  unfold with_time.
  destruct (truthy (default PNone (d !! py "booking_time"))) eqn:Et; [left; exact Et|].
  destruct (any_in time_keywords u) eqn:Ea; [left | right; reflexivity].
  rewrite lookup_insert_eq. cbn [default truthy].
  apply nonempty_take; [apply time_keyword_not_blank, Ea | lia].
Qed.

(** X1. The extractor writes to the keys treatment and booking_time only:
    every other entry of the dict is returned as it was, and no key is
    removed. *)
Theorem update_touches_two_keys (d : gmap pystr pyval) (u : pystr) :
  exists d',
    update_conversation_state (PDict d) u = Ok (PDict d')
    /\ (forall k, k <> py "treatment" -> k <> py "booking_time" ->
          d' !! k = d !! k)
    /\ (forall k, is_Some (d !! k) -> is_Some (d' !! k)).
Proof.
  exists (with_time u (with_treatment u d)).
  split; [apply update_as_map|].
  unfold with_time, with_treatment. split.
  - intros k Hk1 Hk2.
    repeat match goal with
           | |- context [if ?b then _ else _] => destruct b
           | |- context [match ?o with Some _ => _ | None => _ end] => destruct o
           end;
      rewrite ?lookup_insert_ne by congruence; reflexivity.
  - intros k Hk.
    repeat match goal with
           | |- context [if ?b then _ else _] => destruct b
           | |- context [match ?o with Some _ => _ | None => _ end] => destruct o
           end;
      rewrite ?lookup_insert_is_Some'; tauto.
Qed.

(** X2. When the booking time is not set and the utterance holds a time
    keyword, the extractor stores the first fifty code points of the
    stripped utterance: a string that is not empty and no longer than
    fifty, so that the field is set from then on. *)
Theorem update_records_time (d : gmap pystr pyval) (u : pystr) :
  truthy (default PNone (d !! py "booking_time")) = false ->
  any_in time_keywords u = true ->
  exists d' t,
    update_conversation_state (PDict d) u = Ok (PDict d')
    /\ d' !! py "booking_time" = Some (PStr t)
    /\ t = take 50 (strip u)
    /\ nonempty t = true
    /\ (List.length t <= 50)%nat
    /\ field_set (PDict d') (py "booking_time") (PStr t).
Proof.
  intros Hb Ha.
  assert (Hne : nonempty (take 50 (strip u)) = true)
    by (apply nonempty_take; [apply time_keyword_not_blank, Ha | lia]).
  exists (with_time u (with_treatment u d)), (take 50 (strip u)).
  split; [apply update_as_map|].
  assert (Hl : with_time u (with_treatment u d) !! py "booking_time"
               = Some (PStr (take 50 (strip u)))).
  { unfold with_time. rewrite with_treatment_time_key, Hb, Ha.
    apply lookup_insert_eq. }
  split; [exact Hl|]. split; [reflexivity|]. split; [exact Hne|].
  split; [rewrite length_take; lia|].
  split; [cbn [py_get]; rewrite Hl; reflexivity | exact Hne].
Qed.

(** X3. Extraction is idempotent: running the extractor again on its own
    result with the same utterance changes nothing. *)
Theorem update_idempotent (s s' : pyval) (u : pystr) :
  update_conversation_state s u = Ok s' ->
  update_conversation_state s' u = Ok s'.
Proof.
  intros Hu. destruct (update_ok_inv _ _ _ Hu) as (d & d' & -> & ->).
  rewrite update_as_map in Hu. injection Hu as <-.
  rewrite update_as_map. do 2 f_equal.
  rewrite (with_treatment_fixed u (with_time u (with_treatment u d))).
  - apply with_time_fixed, with_time_settled.
  - rewrite with_time_treatment_key. apply with_treatment_settled.
Qed.

(** X4. A state in which both fields are set is returned unchanged by the
    extractor, whatever the utterance. *)
Theorem update_keeps_full_state (s : pyval) (u : pystr) (t b : pyval) :
  field_set s (py "treatment") t ->
  field_set s (py "booking_time") b ->
  update_conversation_state s u = Ok s.
Proof.
  intros [Ht Htt] [Hb Hbt].
  destruct (py_get_dict _ _ _ Ht) as (d & -> & Hdt).
  destruct (py_get_dict _ _ _ Hb) as (d0 & [= <-] & Hdb).
  rewrite update_as_map.
  rewrite (with_treatment_fixed u d) by (left; rewrite Hdt; exact Htt).
  rewrite (with_time_fixed u d) by (left; rewrite Hdb; exact Hbt).
  reflexivity.
Qed.

(** X5. A treatment the extractor writes is one of the four of the
    catalogue, and it writes one only where none was set. *)
Theorem update_treatment_from_catalogue (d d' : gmap pystr pyval) (u : pystr) :
  update_conversation_state (PDict d) u = Ok (PDict d') ->
  d' !! py "treatment" = d !! py "treatment"
  \/ (truthy (default PNone (d !! py "treatment")) = false
      /\ exists t, In t treatments /\ d' !! py "treatment" = Some (PStr t)).
Proof.
  rewrite update_as_map. intros [= <-].
  rewrite with_time_treatment_key. unfold with_treatment.
  destruct (truthy (default PNone (d !! py "treatment"))) eqn:Et; [left; reflexivity|].
  destruct (detected_treatment u) as [t|] eqn:Ed; [|left; reflexivity].
  right. split; [reflexivity|]. exists t.
  split; [eapply detected_in_catalogue, Ed | apply lookup_insert_eq].
Qed.

End Extractor.

(** ** More on substring search *)

Lemma contains_self (kw : pystr) : contains kw kw = true.
Proof.
  pose proof (contains_intro [] kw []) as Hc.
  cbn [app] in Hc. rewrite app_nil_r in Hc. exact Hc.
Qed.

Lemma contains_app_l (kw x y : pystr) :
  contains kw x = true -> contains kw (x ++ y) = true.
Proof.
  intros Hc. apply contains_inv in Hc as (a & b & ->).
  rewrite <- !app_assoc. apply contains_intro.
Qed.

Lemma contains_app_r (kw x y : pystr) :
  contains kw y = true -> contains kw (x ++ y) = true.
Proof.
  intros Hc. apply contains_inv in Hc as (a & b & ->).
  rewrite app_assoc. apply contains_intro.
Qed.

Lemma contains_trans (a b x : pystr) :
  contains a b = true -> contains b x = true -> contains a x = true.
Proof.
  intros Hab Hbx. apply contains_inv in Hbx as (p & q & ->).
  apply contains_app_r, contains_app_l, Hab.
Qed.

Lemma any_in_none (kws : list pystr) (k x : pystr) :
  any_in kws x = false -> In k kws -> contains k x = false.
Proof.
  intros Ha Hin. destruct (contains k x) eqn:Ec; [|reflexivity].
  rewrite (any_in_intro kws k x Hin Ec) in Ha. discriminate.
Qed.

Lemma contains_cons (kw : pystr) (c : N) (y : pystr) :
  contains kw y = true -> contains kw (c :: y) = true.
Proof. apply (contains_app_r kw [c] y). Qed.

(** Finds the place of the word in a text built by concatenation. *)
Ltac find_word :=
  match goal with
  | |- contains ?k ?x = true => constr_eq k x; apply contains_self
  | |- contains _ (_ :: _) = true => apply contains_cons; find_word
  | |- contains _ (_ ++ _) = true => apply contains_app_l; find_word
  | |- contains _ (_ ++ _) = true => apply contains_app_r; find_word
  end.

Section Dialogue.
Context `{PyBuiltins}.

(** ** The memory block of the prompt *)

(** X6. The memory block is empty exactly when neither field is set; when
    a field is set the block holds the text of its value. *)
Theorem memory_context_reports_fields (d : gmap pystr pyval) :
  let t := default PNone (d !! py "treatment") in
  let b := default PNone (d !! py "booking_time") in
  exists c,
    build_memory_context (PDict d) = Ok c
    /\ (nonempty c = false <-> truthy t = false /\ truthy b = false)
    /\ (truthy t = true -> contains (py_str t) c = true)
    /\ (truthy b = true -> contains (py_str b) c = true).
Proof.
  intros t b. unfold build_memory_context. cbn [py_get bind].
  fold t b. destruct (truthy t) eqn:Et, (truthy b) eqn:Eb;
    cbn [app map py_join]; eexists; (split; [reflexivity|]).
  - split; [split; [intros Hc; vm_compute in Hc; discriminate | intros [? ?]; discriminate]|].
    split; intros _; find_word.
  - split; [split; [intros Hc; vm_compute in Hc; discriminate | intros [? ?]; discriminate]|].
    split; [intros _; find_word | discriminate].
  - split; [split; [intros Hc; vm_compute in Hc; discriminate | intros [? ?]; discriminate]|].
    split; [discriminate | intros _; find_word].
  - split; [split; [auto | reflexivity]|]. split; discriminate.
Qed.

(** ** Classifier and responder *)

Lemma rule_price_incl : incl rule_price price_signals.
Proof.
  intros k Hk. unfold rule_price in Hk. unfold price_signals.
  simpl in Hk. simpl. tauto.
Qed.

Lemma rule_service_incl : incl rule_service facial_signals.
Proof.
  intros k Hk. unfold rule_service in Hk. unfold facial_signals.
  simpl in Hk. simpl. tauto.
Qed.

Lemma any_in_false_incl (l1 l2 : list pystr) (x : pystr) :
  incl l1 l2 -> any_in l2 x = false -> any_in l1 x = false.
Proof.
  intros Hi Hf. destruct (any_in l1 x) eqn:E; [|reflexivity].
  rewrite (any_in_incl _ _ _ Hi E) in Hf. discriminate.
Qed.

(** A question about the opening hours holds a booking signal. *)
Lemma hours_words_are_signals (x : pystr) :
  contains (py "營業時間") x || contains (py "幾時開") x
  || contains (py "幾時收") x = true ->
  any_in booking_signals x = true.
Proof.
  intros Hh. apply orb_true_iff in Hh as [Hh|Hh];
    [apply orb_true_iff in Hh as [Hh|Hh]|].
  - apply (any_in_intro _ (py "時間")); [unfold booking_signals; simpl; tauto|].
    eapply contains_trans; [|exact Hh]. vm_compute. reflexivity.
  - apply (any_in_intro _ (py "幾時")); [unfold booking_signals; simpl; tauto|].
    eapply contains_trans; [|exact Hh]. vm_compute. reflexivity.
  - apply (any_in_intro _ (py "幾時")); [unfold booking_signals; simpl; tauto|].
    eapply contains_trans; [|exact Hh]. vm_compute. reflexivity.
Qed.

Lemma location_words_test (x : pystr) :
  contains (py "位置") x || contains (py "地址") x || contains (py "邊度") x
  = any_in location_words x.
Proof.
  unfold any_in, location_words. cbn [existsb].
  rewrite orb_false_r, orb_assoc. reflexivity.
Qed.

(** X7. Whenever the responder has an answer other than the one of its
    location branch, the classifier approves the quick path. *)
Theorem classifier_covers_responder (u : pystr) (d : gmap pystr pyval)
    (r : pystr) :
  quick_rule_reply u (PDict d) = Ok r ->
  nonempty r = true ->
  any_in location_words (lower u) = false ->
  _should_use_quick_path u (PDict d) = Ok true.
Proof.
  unfold quick_rule_reply, _should_use_quick_path. cbn [py_get bind].
  intros Hr Hne Hloc.
  destruct (any_in booking_signals (lower u)) eqn:Eb; [reflexivity|].
  rewrite (any_in_false_incl _ _ _ rule_booking_incl Eb) in Hr.
  destruct (any_in price_signals (lower u)) eqn:Ep; [reflexivity|].
  rewrite (any_in_false_incl _ _ _ rule_price_incl Ep) in Hr.
  destruct (any_in rule_service (lower u)) eqn:Es.
  - rewrite (any_in_incl _ _ _ rule_service_incl Es).
    destruct (truthy (default PNone (d !! py "treatment"))); [reflexivity|].
    cbn [andb] in Hr.
    destruct (contains (py "營業時間") (lower u) || contains (py "幾時開") (lower u)
              || contains (py "幾時收") (lower u)) eqn:Eh.
    + rewrite (hours_words_are_signals _ Eh) in Eb. discriminate.
    + rewrite location_words_test, Hloc in Hr. injection Hr as <-. discriminate.
  - cbn [andb] in Hr.
    destruct (contains (py "營業時間") (lower u) || contains (py "幾時開") (lower u)
              || contains (py "幾時收") (lower u)) eqn:Eh.
    + rewrite (hours_words_are_signals _ Eh) in Eb. discriminate.
    + rewrite location_words_test, Hloc in Hr. injection Hr as <-. discriminate.
Qed.

End Dialogue.

Section Orchestrator.
Context `{PyBuiltins}.

(** ** The orchestrator *)

Lemma quick_stage_some (u : pystr) (s : pyval) (r : pystr) :
  quick_stage u s = Ok (Some r) ->
  quick_rule_reply u s = Ok r /\ nonempty r = true.
Proof.
  unfold quick_stage.
  destruct (_should_use_quick_path u s) as [[|]|]; cbn [bind]; try discriminate.
  destruct (quick_rule_reply u s) as [f|]; cbn [bind]; [|discriminate].
  destruct (nonempty f) eqn:Ef; [|discriminate].
  intros [= <-]. split; [reflexivity | exact Ef].
Qed.

Lemma canned_for_listed (e : exn) : In (canned_for e) canned_replies.
Proof.
  unfold canned_replies.
  destruct e; cbv beta iota delta [canned_for];
    [ right; right; right; left; reflexivity
    | right; right; right; left; reflexivity
    | right; right; right; left; reflexivity
    | right; right; left; reflexivity
    | right; right; right; left; reflexivity ].
Qed.

(** The answers of the booking and price branches are not empty. *)
Lemma rule_reply_nonempty (u : pystr) (d : gmap pystr pyval) :
  any_in rule_booking (lower u) = true \/ any_in rule_price (lower u) = true ->
  exists r, quick_rule_reply u (PDict d) = Ok r /\ nonempty r = true.
Proof.
  intros Hk. unfold quick_rule_reply. cbn [py_get bind].
  destruct (any_in rule_booking (lower u)) eqn:Eb.
  - repeat match goal with
           | |- context [if ?b then _ else _] => destruct b
           end; eexists; (split; [reflexivity|]); vm_compute; reflexivity.
  - destruct Hk as [Hk|Hk]; [discriminate|]. rewrite Hk.
    repeat match goal with
           | |- context [if ?b then _ else _] => destruct b
           end; eexists; (split; [reflexivity|]); vm_compute; reflexivity.
Qed.

(** X8. The reply of [generate_reply] is one of its four canned replies or
    the rule responder's reply on the returned state: the text of the model
    is never returned. The returned state is the given one for the empty
    utterance and the extracted one otherwise. *)
Theorem reply_is_rule_or_canned (gm : pystr -> outcome) (u : pystr)
    (d : gmap pystr pyval) (r : pystr) (s' : pyval) :
  generate_reply gm u (PDict d) = Ok (r, s') ->
  (In r canned_replies \/ quick_rule_reply u s' = Ok r)
  /\ (nonempty u = false -> s' = PDict d)
  /\ (nonempty u = true -> update_conversation_state (PDict d) u = Ok s').
Proof.
  unfold generate_reply. destruct (nonempty u) eqn:Hu; cbn [negb].
  - destruct (update_dict d u) as (d' & Hupd & _). rewrite Hupd. cbn [bind].
    destruct (quick_stage_dict u d') as (o & Hq & _). rewrite Hq. cbn [bind].
    destruct o as [fast|].
    + intros [= <- <-]. apply quick_stage_some in Hq as [Hf _].
      split; [right; exact Hf|]. split; [discriminate | reflexivity].
    + intros Hm. split; [|split; [discriminate|]].
      * destruct (ask_model_dict gm u d') as [Ha|[e Ha]].
        -- unfold model_stage in Hm. rewrite Ha in Hm. injection Hm as <- <-.
           left. unfold canned_replies. right. left. reflexivity.
        -- rewrite (model_stage_raised _ _ _ _ Ha) in Hm.
           destruct (quick_rule_reply_dict u d') as [f Hf].
           rewrite Hf in Hm. cbn [bind] in Hm. injection Hm as <- <-.
           unfold or_else. destruct (nonempty f);
             [right; exact Hf | left; apply canned_for_listed].
      * destruct (model_stage_dict gm u d') as (r' & Hr' & _).
        rewrite Hr' in Hm. injection Hm as _ <-. reflexivity.
  - intros [= <- <-]. split; [|split; [reflexivity | discriminate]].
    left. unfold canned_replies. left. reflexivity.
Qed.

(** X9. A turn that names a booking or a price keyword is answered by the
    rules: the reply is the responder's, it is not empty, and it is the same
    whatever the model would do. *)
Theorem rules_answer_booking_and_price (u : pystr) (d : gmap pystr pyval) :
  nonempty u = true ->
  any_in rule_booking (lower u) = true \/ any_in rule_price (lower u) = true ->
  exists r s',
    update_conversation_state (PDict d) u = Ok s'
    /\ quick_rule_reply u s' = Ok r
    /\ nonempty r = true
    /\ forall gm, generate_reply gm u (PDict d) = Ok (r, s').
Proof.
  intros Hu Hk. destruct (update_dict d u) as (d' & Hupd & _).
  destruct (rule_reply_nonempty u d' Hk) as (r & Hr & Hne).
  exists r, (PDict d'). split; [exact Hupd|]. split; [exact Hr|].
  split; [exact Hne|]. intros gm.
  unfold generate_reply. rewrite Hu, Hupd. cbn [negb bind].
  assert (Hq : _should_use_quick_path u (PDict d') = Ok true).
  { unfold _should_use_quick_path.
    destruct (any_in booking_signals (lower u)) eqn:Eb; [reflexivity|].
    destruct Hk as [Hk|Hk].
    - rewrite (any_in_incl _ _ _ rule_booking_incl Hk) in Eb. discriminate.
    - rewrite (any_in_incl _ _ _ rule_price_incl Hk). reflexivity. }
  unfold quick_stage. rewrite Hq. cbn [bind]. rewrite Hr. cbn [bind].
  rewrite Hne. reflexivity.
Qed.

(** X10. When the model answers with no text, the canned "can't respond"
    reply is returned with the extracted state. *)
Theorem silent_model_reply (gm : pystr -> outcome) (u : pystr)
    (s s' : pyval) (p : pystr) (r : response) :
  nonempty u = true ->
  update_conversation_state s u = Ok s' ->
  quick_stage u s' = Ok None ->
  build_prompt u s' = Ok p ->
  gm p = Responded r ->
  nonempty (_extract_text_from_response r) = false ->
  generate_reply gm u s = Ok (CANT_RESPOND, s').
Proof.
  intros Hu Hs Hq Hp Hg Ht.
  rewrite (generate_reply_steps gm u s s' Hu Hs Hq).
  unfold model_stage, ask_model. rewrite Hp. cbn [bind]. rewrite Hg, Ht.
  reflexivity.
Qed.

Lemma location_reply_nonempty : nonempty LOCATION_REPLY = true.
Proof. vm_compute. reflexivity. Qed.

(** X11. A question about the address that holds no signal of the
    classifier is not answered on the quick path: the model is asked first.
    The reply is the responder's fixed address answer all the same, unless
    the model answers with no text. *)
Theorem location_question_asks_model (gm : pystr -> outcome) (u : pystr)
    (d : gmap pystr pyval) :
  nonempty u = true ->
  any_in location_words (lower u) = true ->
  any_in booking_signals (lower u) = false ->
  any_in price_signals (lower u) = false ->
  any_in facial_signals (lower u) = false ->
  exists s' p,
    update_conversation_state (PDict d) u = Ok s'
    /\ _should_use_quick_path u s' = Ok false
    /\ quick_rule_reply u s' = Ok LOCATION_REPLY
    /\ build_prompt u s' = Ok p
    /\ generate_reply gm u (PDict d)
       = Ok (match gm p with
             | Responded resp =>
               if nonempty (_extract_text_from_response resp)
               then LOCATION_REPLY else CANT_RESPOND
             | Failed _ => LOCATION_REPLY
             end, s').
Proof.
  intros Hu Hloc Hb Hp Hf.
  destruct (update_dict d u) as (d' & Hupd & _).
  destruct (build_prompt_dict u d') as [p Hprompt].
  exists (PDict d'), p.
  assert (Hq : _should_use_quick_path u (PDict d') = Ok false).
  { unfold _should_use_quick_path. rewrite Hb, Hp, Hf. reflexivity. }
  assert (Hr : quick_rule_reply u (PDict d') = Ok LOCATION_REPLY).
  { unfold quick_rule_reply. cbn [py_get bind].
    rewrite (any_in_false_incl _ _ _ rule_booking_incl Hb).
    rewrite (any_in_false_incl _ _ _ rule_price_incl Hp).
    rewrite (any_in_false_incl _ _ _ rule_service_incl Hf). cbn [andb].
    destruct (contains (py "營業時間") (lower u) || contains (py "幾時開") (lower u)
              || contains (py "幾時收") (lower u)) eqn:Eh.
    - rewrite (hours_words_are_signals _ Eh) in Hb. discriminate.
    - rewrite location_words_test, Hloc. unfold LOCATION_REPLY. reflexivity. }
  split; [exact Hupd|]. split; [exact Hq|]. split; [exact Hr|].
  split; [exact Hprompt|].
  assert (Hstage : quick_stage u (PDict d') = Ok None).
  { unfold quick_stage. rewrite Hq. reflexivity. }
  rewrite (generate_reply_steps gm u _ _ Hu Hupd Hstage).
  assert (Hor : forall c, or_else LOCATION_REPLY c = LOCATION_REPLY).
  { intros c. unfold or_else. rewrite location_reply_nonempty. reflexivity. }
  destruct (gm p) as [resp|e] eqn:Hg.
  - destruct (nonempty (_extract_text_from_response resp)) eqn:Et.
    + assert (Ha : ask_model gm u (PDict d') = Raise re_error).
      { unfold ask_model. rewrite Hprompt. cbn [bind]. rewrite Hg, Et.
        rewrite apply_hard_rules_raises by exact Et. reflexivity. }
      rewrite (model_stage_raised _ _ _ _ Ha), Hr. cbn [bind].
      rewrite Hor. reflexivity.
    + unfold model_stage, ask_model. rewrite Hprompt. cbn [bind].
      rewrite Hg, Et. reflexivity.
  - assert (Ha : ask_model gm u (PDict d') = Raise e).
    { unfold ask_model. rewrite Hprompt. cbn [bind]. rewrite Hg. reflexivity. }
    rewrite (model_stage_raised _ _ _ _ Ha), Hr. cbn [bind].
    rewrite Hor. reflexivity.
Qed.

(** ** Reading the response *)

Lemma first_part_text_stripped (parts : list part) (t : pystr) :
  first_part_text parts = Some t -> strip t = t.
Proof.
  induction parts as [|q parts IH]; cbn [first_part_text]; [discriminate|].
  destruct (part_text q) as [x|]; [|exact IH].
  destruct (nonempty x); [|exact IH].
  intros [= <-]. apply strip_idempotent.
Qed.

Lemma first_candidate_text_stripped (cands : list candidate) :
  strip (first_candidate_text cands) = first_candidate_text cands.
Proof.
  induction cands as [|c cands IH]; cbn [first_candidate_text]; [reflexivity|].
  destruct (cand_parts c) as [parts|]; [|reflexivity].
  destruct (first_part_text parts) as [t|] eqn:Ep; [|exact IH].
  eapply first_part_text_stripped, Ep.
Qed.

(** X12. The text read off a response has no white space at either end,
    whichever attribute it comes from. *)
Theorem extracted_text_is_stripped (r : response) :
  strip (_extract_text_from_response r) = _extract_text_from_response r.
Proof.
  unfold _extract_text_from_response.
  destruct (resp_text r) as [[t|]|]; try apply first_candidate_text_stripped.
  destruct (nonempty t); [apply strip_idempotent | apply first_candidate_text_stripped].
Qed.

End Orchestrator.

(** ** More on the speech sanitiser *)

Lemma length_sub_parens (k : nat) (s : pystr) :
  (List.length (sub_parens k s) <= List.length s)%nat.
Proof.
  revert k. induction s as [|c s IH]; intros k; cbn [sub_parens]; [lia|].
  destruct k as [|k]; [|specialize (IH k); cbn [List.length]; lia].
  destruct (is_open c).
  - destruct (span_end 40 s) as [n|].
    + specialize (IH n). cbn [List.length]. lia.
    + specialize (IH 0%nat). cbn [List.length]. lia.
  - specialize (IH 0%nat). cbn [List.length]. lia.
Qed.

Lemma length_remove_cp (x : N) (s : pystr) :
  (List.length (remove_cp x s) <= List.length s)%nat.
Proof. unfold remove_cp. apply length_filter. Qed.

Lemma length_sub_dashes (s : pystr) :
  (List.length (sub_dashes s) <= List.length s)%nat.
Proof. unfold sub_dashes. apply length_filter. Qed.

Lemma length_sub_slashes (k : nat) (f : bool) (s : pystr) :
  (List.length (sub_slashes k f s) <= List.length s)%nat.
Proof.
  revert k f. induction s as [|c s IH]; intros k f; cbn [sub_slashes]; [lia|].
  destruct k as [|k]; [|specialize (IH k f); cbn [List.length]; lia].
  destruct (slash_token_len (c :: s)) as [n|].
  - specialize (IH (pred n) true). rewrite length_app.
    destruct f; cbn [List.length]; lia.
  - specialize (IH 0%nat false). cbn [List.length]. lia.
Qed.

Lemma length_sub_spaces (f : bool) (s : pystr) :
  (List.length (sub_spaces f s) <= List.length s)%nat.
Proof.
  revert f. induction s as [|c s IH]; intros f; cbn [sub_spaces]; [lia|].
  destruct (is_space c).
  - specialize (IH true). rewrite length_app. destruct f; cbn [List.length]; lia.
  - specialize (IH false). cbn [List.length]. lia.
Qed.

Lemma length_after_parens (s : pystr) :
  (List.length (after_parens s) <= List.length s)%nat.
Proof.
  unfold after_parens.
  etransitivity; [apply length_strip|].
  etransitivity; [apply length_sub_spaces|].
  etransitivity; [apply length_sub_slashes|].
  etransitivity; [apply length_strip|].
  etransitivity; [apply length_sub_dashes|].
  etransitivity; [apply length_remove_cp|].
  etransitivity; [apply length_remove_cp|].
  apply length_remove_cp.
Qed.

(** X13. Sanitising never makes a text longer. *)
Theorem sanitize_never_longer (text : pystr) :
  (List.length (sanitize_tts_text text) <= List.length text)%nat.
Proof.
  rewrite sanitize_factor.
  etransitivity; [apply length_after_parens | apply length_sub_parens].
Qed.

(** The bracket pass up to an opening bracket that the scan reaches. *)
Lemma sub_parens_upto_open (pre : pystr) (o : N) (rest : pystr) (skip : nat) :
  is_open o = true -> (skip <= List.length pre)%nat ->
  sub_parens skip (pre ++ o :: rest)
  = sub_parens skip pre ++ sub_parens 0 (o :: rest).
Proof.
  intros Ho. revert skip. induction pre as [|p pre IH]; intros skip Hs.
  - cbn in Hs. assert (skip = 0%nat) as -> by lia. reflexivity.
  - cbn [app]. cbn [sub_parens]. destruct skip as [|k].
    + rewrite (span_end_before_open 40 pre o rest Ho).
      destruct (is_open p); [|rewrite IH by lia; reflexivity].
      destruct (span_end 40 pre) as [k|] eqn:E.
      * apply IH. eapply span_end_fits, E.
      * rewrite IH by lia. reflexivity.
    + apply IH. cbn in Hs. lia.
Qed.

Lemma span_end_too_long (n : nat) (mid rest : pystr) :
  forallb (fun x => negb (is_bracket x)) mid = true ->
  (n < List.length mid)%nat ->
  span_end n (mid ++ rest) = None.
Proof.
  revert n. induction mid as [|x mid IH]; intros n Hm Hn; [cbn in Hn; lia|].
  cbn [forallb] in Hm. apply andb_true_iff in Hm as [Hx Hm].
  unfold is_bracket in Hx. apply negb_true_iff, orb_false_iff in Hx as [Hxo Hxc].
  cbn [app span_end]. rewrite Hxc, Hxo.
  destruct n; [reflexivity|].
  rewrite IH; [reflexivity | exact Hm | cbn in Hn; lia].
Qed.

Lemma sub_parens_plain (s rest : pystr) :
  forallb (fun x => negb (is_open x)) s = true ->
  sub_parens 0 (s ++ rest) = s ++ sub_parens 0 rest.
Proof.
  induction s as [|c s IH]; intros Hs; [reflexivity|].
  cbn [forallb] in Hs. apply andb_true_iff in Hs as [Hc Hs].
  apply negb_true_iff in Hc. cbn [app sub_parens]. rewrite Hc, (IH Hs).
  reflexivity.
Qed.

Lemma no_bracket_no_open (s : pystr) :
  forallb (fun x => negb (is_bracket x)) s = true ->
  forallb (fun x => negb (is_open x)) s = true.
Proof.
  rewrite !forallb_forall. intros Hs x Hx. specialize (Hs x Hx).
  unfold is_bracket in Hs. apply negb_true_iff, orb_false_iff in Hs as [-> _].
  reflexivity.
Qed.

(** X14. The cap: an opening bracket followed by more than forty code
    points that are no brackets is left where it is, with what follows it;
    only what stands before and after is treated. *)
Theorem long_span_is_kept (pre : pystr) (o : N) (mid rest : pystr) :
  is_open o = true ->
  forallb (fun x => negb (is_bracket x)) mid = true ->
  (40 < List.length mid)%nat ->
  sub_parens 0 (pre ++ o :: mid ++ rest)
  = sub_parens 0 pre ++ o :: mid ++ sub_parens 0 rest
  /\ sanitize_tts_text (pre ++ o :: mid ++ rest)
     = after_parens (sub_parens 0 pre ++ o :: mid ++ sub_parens 0 rest).
Proof.
  intros Ho Hm Hlen.
  assert (Hp : sub_parens 0 (pre ++ o :: mid ++ rest)
               = sub_parens 0 pre ++ o :: mid ++ sub_parens 0 rest).
  { rewrite (sub_parens_upto_open pre o _ 0 Ho) by lia. f_equal.
    cbn [sub_parens]. rewrite Ho, (span_end_too_long 40 mid rest Hm Hlen).
    f_equal. apply sub_parens_plain, no_bracket_no_open, Hm. }
  split; [exact Hp|]. rewrite sanitize_factor, Hp. reflexivity.
Qed.

Lemma remove_cp_fixed (x : N) (s : pystr) :
  (forall c, In c s -> c <> x) -> remove_cp x s = s.
Proof.
  unfold remove_cp, pystr in *. induction s as [|c s IH]; intros Hs; [reflexivity|].
  rewrite filter_cons_True by (apply Hs; left; reflexivity).
  rewrite IH; [reflexivity|]. intros y Hy. apply Hs. right. exact Hy.
Qed.

Lemma sub_dashes_fixed (s : pystr) :
  (forall c, In c s -> is_dash c = false) -> sub_dashes s = s.
Proof.
  unfold sub_dashes, pystr in *. induction s as [|c s IH]; intros Hs; [reflexivity|].
  rewrite filter_cons_True by (apply Hs; left; reflexivity).
  rewrite IH; [reflexivity|]. intros y Hy. apply Hs. right. exact Hy.
Qed.

Lemma sub_slashes_fixed (s : pystr) :
  slash_free s -> sub_slashes 0 false s = s.
Proof.
  induction s as [|c s IH]; intros Hs; [reflexivity|].
  cbn [sub_slashes]. rewrite (Hs [] (c :: s) eq_refl).
  rewrite IH; [reflexivity|]. exact (slash_free_app_r [c] s Hs).
Qed.

Lemma sub_spaces_fixed (s : pystr) (f : bool) :
  single_spaced s -> (f = true -> starts_solid s) -> sub_spaces f s = s.
Proof.
  revert f. induction s as [|c s IH]; intros f Hs Hf; [reflexivity|].
  cbn [single_spaced] in Hs. destruct Hs as [Hc Hs]. cbn [sub_spaces].
  destruct (is_space c) eqn:Ec.
  - destruct (Hc eq_refl) as [-> Hsolid].
    destruct f; [specialize (Hf eq_refl); cbn in Hf; congruence|].
    rewrite (IH true Hs (fun _ => Hsolid)). reflexivity.
  - rewrite (IH false Hs); [reflexivity | discriminate].
Qed.

Lemma after_parens_fixed (s : pystr) :
  (forall c, In c s ->
     c <> ASTERISK /\ c <> DQUOTE /\ c <> SQUOTE /\ is_dash c = false) ->
  slash_free s -> single_spaced s -> starts_solid s -> ends_solid s ->
  after_parens s = s.
Proof.
  intros Hsym Hfree Hsingle Hstart Hend. unfold after_parens.
  rewrite (remove_cp_fixed ASTERISK s) by (intros c Hc; apply (Hsym c Hc)).
  rewrite (remove_cp_fixed DQUOTE s) by (intros c Hc; apply (Hsym c Hc)).
  rewrite (remove_cp_fixed SQUOTE s) by (intros c Hc; apply (Hsym c Hc)).
  rewrite (sub_dashes_fixed s) by (intros c Hc; apply (Hsym c Hc)).
  rewrite (strip_fixed s Hstart Hend).
  rewrite (sub_slashes_fixed s Hfree).
  rewrite (sub_spaces_fixed s false Hsingle) by discriminate.
  apply strip_fixed; assumption.
Qed.

(** X15. Sanitising a sanitised text changes nothing, provided no opening
    bracket is left in it. *)
Theorem sanitize_twice (text : pystr) :
  forallb (fun x => negb (is_open x)) (sanitize_tts_text text) = true ->
  sanitize_tts_text (sanitize_tts_text text) = sanitize_tts_text text.
Proof.
  intros Hopen. rewrite (sanitize_factor (sanitize_tts_text text)).
  pose proof (sub_parens_plain (sanitize_tts_text text) [] Hopen) as Hp.
  rewrite !app_nil_r in Hp. cbn [sub_parens] in Hp. rewrite ?app_nil_r in Hp.
  rewrite Hp. rewrite (sanitize_factor text) in *.
  apply after_parens_fixed.
  - intros c. apply after_parens_symbols.
  - apply after_parens_slash_free.
  - unfold after_parens. apply strip_single, sub_spaces_single.
  - unfold after_parens. apply strip_solid.
  - unfold after_parens. apply strip_ends_solid.
Qed.

(* ================================================================== *)
(** * The web application *)

(** ** Speech synthesis *)

Lemma sanitize_stripped (text : pystr) :
  strip (sanitize_tts_text text) = sanitize_tts_text text.
Proof. rewrite sanitize_factor. unfold after_parens. apply strip_idempotent. Qed.

Lemma spoken_text_prefix (m : Z) (t : pystr) :
  (0 <= m)%Z ->
  exists rest, t = spoken_text m t ++ rest
               /\ (Z.of_nat (List.length (spoken_text m t)) <= m)%Z.
Proof.
  intros Hm. unfold spoken_text, py_prefix.
  destruct (m <? Z.of_nat (List.length t))%Z eqn:Elt.
  - apply Z.ltb_lt in Elt.
    destruct (0 <=? m)%Z eqn:E0; [|apply Z.leb_gt in E0; lia].
    exists (drop (Z.to_nat m) t). split; [symmetry; apply take_drop|].
    rewrite length_take. lia.
  - apply Z.ltb_ge in Elt. exists []. split; [rewrite app_nil_r; reflexivity | lia].
Qed.

Lemma spoken_text_nonempty (m : Z) (t : pystr) :
  (1 <= m)%Z -> nonempty t = true -> nonempty (spoken_text m t) = true.
Proof.
  intros Hm Ht. unfold spoken_text, py_prefix.
  destruct (m <? Z.of_nat (List.length t))%Z; [|exact Ht].
  destruct (0 <=? m)%Z eqn:E0; [|apply Z.leb_gt in E0; lia].
  apply nonempty_take; [exact Ht | lia].
Qed.

(** X16. [tts_to_mp3] never calls the synthesiser on a text that sanitises
    to nothing. Otherwise, with a limit that is not negative, what the
    synthesiser gets is the beginning of the sanitised text, no longer than
    the limit, free of asterisks, quotes, dashes and slash tokens, and not
    empty when the limit is at least one. *)
Theorem tts_speaks_clean_bounded_text (synth : pystr -> synth_outcome)
    (text : pystr) :
  (nonempty (sanitize_tts_text text) = false ->
   forall max_chars,
     tts_to_mp3 synth max_chars text = Done (false, py "文字為空"))
  /\ (nonempty (sanitize_tts_text text) = true ->
      forall m, (0 <= m)%Z ->
      exists t rest,
        tts_to_mp3 synth (Some m) text = Done (tts_result (synth t))
        /\ sanitize_tts_text text = t ++ rest
        /\ (Z.of_nat (List.length t) <= m)%Z
        /\ (forall c, In c t ->
              c <> ASTERISK /\ c <> DQUOTE /\ c <> SQUOTE /\ is_dash c = false)
        /\ slash_free t
        /\ ((1 <= m)%Z -> nonempty t = true)).
Proof.
  split.
  - intros He max_chars. unfold tts_to_mp3.
    rewrite sanitize_stripped, He. reflexivity.
  - intros Hne m Hm.
    destruct (spoken_text_prefix m (sanitize_tts_text text) Hm) as (rest & Hrest & Hlen).
    exists (spoken_text m (sanitize_tts_text text)), rest.
    split; [unfold tts_to_mp3; rewrite sanitize_stripped, Hne; reflexivity|].
    split; [exact Hrest|]. split; [exact Hlen|]. split; [|split].
    + intros c Hc.
      assert (Hin : In c (sanitize_tts_text text))
        by (rewrite Hrest; apply in_or_app; left; exact Hc).
      rewrite sanitize_factor in Hin. eapply after_parens_symbols, Hin.
    + apply (slash_free_app_l _ rest). rewrite <- Hrest, sanitize_factor.
      apply after_parens_slash_free.
    + intros H1. apply spoken_text_nonempty; assumption.
Qed.

(** ** Serving the audio *)

Lemma ends_with_app (a suf : pystr) : ends_with suf (a ++ suf) = true.
Proof. unfold ends_with. rewrite rev_app_distr. apply starts_with_app. Qed.

Lemma ends_with_inv (suf s : pystr) :
  ends_with suf s = true -> exists a, s = a ++ suf.
Proof.
  unfold ends_with. intros Hs. apply starts_with_inv in Hs as [r Hr].
  exists (rev r). rewrite <- (rev_involutive s), Hr, rev_app_distr, rev_involutive.
  reflexivity.
Qed.

(** X17. The file route serves a name exactly when it has the form
    tts_….mp3 and names a file; in particular it accepts the names
    [api_voice] gives its audio files. *)
Theorem tts_file_serves_answer_names (is_file : pystr -> bool) :
  (forall w, is_file (mp3_name w) = true ->
     tts_file is_file (mp3_name w) = SendFile (mp3_name w))
  /\ (forall name n, tts_file is_file name = SendFile n ->
        n = name /\ is_file name = true
        /\ exists mid, name = py "tts_" ++ mid ++ py ".mp3").
Proof.
  split.
  - intros w Hf. unfold tts_file, mp3_name.
    rewrite starts_with_app, app_assoc, ends_with_app.
    cbn [negb orb]. unfold mp3_name in Hf. rewrite app_assoc in Hf.
    rewrite Hf. reflexivity.
  - intros name n. unfold tts_file.
    destruct (starts_with (py "tts_") name) eqn:Es; [|discriminate].
    destruct (ends_with (py ".mp3") name) eqn:Ee; [|discriminate].
    cbn [negb orb]. destruct (is_file name) eqn:Ef; [|discriminate].
    cbn [negb]. intros [= <-]. split; [reflexivity|]. split; [reflexivity|].
    apply starts_with_inv in Es as [rest Hrest].
    apply ends_with_inv in Ee as [a Ha].
    rewrite Ha in Hrest.
    change (py "tts_") with [116; 116; 115; 95] in *.
    change (py ".mp3") with [46; 109; 112; 51] in *.
    destruct a as [|a0 [|a1 [|a2 [|a3 a]]]]; cbn [app] in Hrest;
      try discriminate Hrest.
    injection Hrest as -> -> -> -> _.
    exists a. exact Ha.
Qed.

(** ** The voice endpoint *)

Lemma format_specs :
  format_float (py ". 2f") = Threw ValueError
  /\ format_float (py ".2f") = Done tt
  /\ format_float (py ".1f") = Done tt.
Proof. vm_compute. auto. Qed.

Section Endpoint.
Context `{PyBuiltins}.

(** X18. [api_voice] never answers a turn: without an audio file it
    answers 400; with one it answers 500 and gives back the caller's state,
    for even when the upload is saved and converted the log line after the
    conversion raises [ValueError], its format being spelt [. 2f]. No
    request reaches recognition, the dialogue engine or synthesis. *)
Theorem api_voice_never_answers (w : world) (req : voice_request) :
  body_ok (api_voice w req) = false
  /\ (has_audio req = false -> api_voice w req = NoAudio)
  /\ (has_audio req = true ->
      exists e,
        api_voice w req = ServerError e (current_state_of req)
        /\ (save_upload w = Done tt ->
            convert_to_wav (ffmpeg_on_path w) (ffmpeg w) = Done tt ->
            e = ValueError)).
Proof.
  destruct format_specs as (Hbad & _ & _).
  unfold api_voice, try_voice.
  destruct (has_audio req); cbn [negb].
  - destruct (save_upload w) as [[]|e1]; cbn [and_then].
    + destruct (convert_to_wav (ffmpeg_on_path w) (ffmpeg w)) as [[]|e2];
        cbn [and_then].
      * rewrite Hbad. cbn [and_then].
        split; [reflexivity|]. split; [discriminate|].
        intros _. exists ValueError. split; [reflexivity | reflexivity].
      * split; [reflexivity|]. split; [discriminate|].
        intros _. exists e2. split; [reflexivity | discriminate].
    + split; [reflexivity|]. split; [discriminate|].
      intros _. exists e1. split; [reflexivity | discriminate].
  - split; [reflexivity|]. split; [reflexivity | discriminate].
Qed.

Lemma generate_reply_on_dict (gm : pystr -> outcome) (u : pystr)
    (d : gmap pystr pyval) :
  nonempty u = true ->
  exists r d',
    generate_reply gm u (PDict d) = Ok (r, PDict d')
    /\ nonempty r = true
    /\ update_conversation_state (PDict d) u = Ok (PDict d').
Proof.
  intros Hu. unfold generate_reply. rewrite Hu. cbn [negb].
  destruct (update_dict d u) as (d' & Hupd & _). rewrite Hupd. cbn [bind].
  destruct (quick_stage_dict u d') as (o & -> & Ho). cbn [bind].
  destruct o as [fast|].
  - exists fast, d'. split; [reflexivity|]. split; [apply Ho; reflexivity | reflexivity].
  - destruct (model_stage_dict gm u d') as (r & -> & Hr).
    exists r, d'. split; [reflexivity|]. split; [exact Hr | reflexivity].
Qed.

(** X19. The steps after the conversion, on a dict: an empty transcript is
    answered 400 with the state as given and nothing else is called;
    otherwise the answer carries the transcript, the reply of
    [generate_reply], which is never empty, so that the handler's own
    canned reply is never used, the extracted state, and an audio address
    exactly when synthesis succeeded. *)
Theorem answer_turn_on_dict (w : world) (d : gmap pystr pyval) (m : Z) :
  max_reply_chars w = Some m ->
  let user_text := stt_from_wav (recognize w) in
  (nonempty user_text = false ->
   answer_turn w (PDict d) = Done (NoSpeech (PDict d) (timing_text w)))
  /\ (nonempty user_text = true ->
      exists reply s' tts_ok tts_err,
        generate_reply (gemini w) user_text (PDict d) = Ok (reply, s')
        /\ nonempty reply = true
        /\ update_conversation_state (PDict d) user_text = Ok s'
        /\ tts_to_mp3 (synthesize w) (Some m) reply = Done (tts_ok, tts_err)
        /\ answer_turn w (PDict d)
           = Done (Answer tts_ok tts_err user_text reply
                     (if tts_ok then py "/tts/" ++ mp3_name w else [])
                     s' (timing_text w))).
Proof.
  intros Hmax user_text. destruct format_specs as (_ & H2 & H1).
  split; intros Hu; unfold answer_turn; fold user_text; rewrite Hu; cbn [negb].
  - rewrite H1. reflexivity.
  - rewrite H2, H1. cbn [and_then].
    destruct (generate_reply_on_dict (gemini w) user_text d Hu)
      as (r & d' & Hg & Hr & Hupd).
    rewrite Hg, Hr. cbn [negb]. rewrite Hmax.
    assert (Ht : exists ok err,
               tts_to_mp3 (synthesize w) (Some m) r = Done (ok, err)).
    { unfold tts_to_mp3.
      destruct (nonempty (strip (sanitize_tts_text r))); cbn [negb].
      - destruct (tts_result _) as [ok err]. eauto.
      - eauto. }
    destruct Ht as (ok & err & Ht). rewrite Ht. cbn [and_then].
    exists r, (PDict d'), ok, err. repeat split; assumption || reflexivity.
Qed.

(** X20. The same steps on a state that is no dict, with a transcript that
    is not empty: the engine raises [AttributeError], which the handler
    would answer with 500. *)
Theorem answer_turn_raises_off_dicts (w : world) (s : pyval) :
  (forall d, s <> PDict d) ->
  nonempty (stt_from_wav (recognize w)) = true ->
  answer_turn w s = Threw (CoreRaised AttributeError).
Proof.
  intros Hs Hu. destruct format_specs as (_ & H2 & _).
  unfold answer_turn. rewrite Hu, H2. cbn [negb and_then].
  unfold generate_reply. rewrite Hu. cbn [negb].
  rewrite (update_not_dict s _ Hs). reflexivity.
Qed.

End Endpoint.

Section Turns.
Context `{PyBuiltins}.

(** ** A booking turn *)

Lemma booking_turn_quick (gm : pystr -> outcome) (u : pystr)
    (d' : gmap pystr pyval) (s : pyval) (r : pystr) :
  nonempty u = true ->
  any_in rule_booking (lower u) = true ->
  update_conversation_state s u = Ok (PDict d') ->
  quick_rule_reply u (PDict d') = Ok r ->
  nonempty r = true ->
  generate_reply gm u s = Ok (r, PDict d').
Proof.
  intros Hu Hk Hupd Hr Hne. unfold generate_reply.
  rewrite Hu, Hupd. cbn [negb bind]. unfold quick_stage.
  unfold _should_use_quick_path at 1.
  rewrite (any_in_incl _ _ _ rule_booking_incl Hk). cbn [bind].
  rewrite Hr. cbn [bind]. rewrite Hne. reflexivity.
Qed.

(** X21. A booking turn when no treatment is known and the utterance names
    none: the reply is the question for the treatment, whatever the model
    would do, and the treatment stays unset. *)
Theorem booking_turn_asks_treatment (u : pystr) (d : gmap pystr pyval) :
  nonempty u = true ->
  any_in rule_booking (lower u) = true ->
  truthy (default PNone (d !! py "treatment")) = false ->
  detected_treatment u = None ->
  exists s',
    update_conversation_state (PDict d) u = Ok s'
    /\ field_unset s' (py "treatment")
    /\ forall gm, generate_reply gm u (PDict d) = Ok (ASK_TREATMENT, s').
Proof.
  intros Hu Hk Ht Hd.
  pose proof (update_as_map d u) as Hupd.
  rewrite (with_treatment_fixed u d (or_intror Hd)) in Hupd.
  assert (Hl : truthy (default PNone (with_time u d !! py "treatment")) = false)
    by (rewrite with_time_treatment_key; exact Ht).
  exists (PDict (with_time u d)). split; [exact Hupd|]. split.
  - eexists. split; [reflexivity | exact Hl].
  - intros gm. apply booking_turn_quick; try assumption.
    + unfold quick_rule_reply. cbn [py_get bind]. rewrite Hk, Hl. reflexivity.
    + vm_compute. reflexivity.
Qed.

(** X22. A booking turn when no treatment is known and the utterance names
    one: the treatment is stored first, and the reply of the same turn,
    given without the model, already holds its text. *)
Theorem booking_turn_uses_named_treatment (u : pystr) (d : gmap pystr pyval)
    (t : pystr) :
  nonempty u = true ->
  any_in rule_booking (lower u) = true ->
  truthy (default PNone (d !! py "treatment")) = false ->
  detected_treatment u = Some t ->
  exists s' r,
    update_conversation_state (PDict d) u = Ok s'
    /\ py_get s' (py "treatment") = Ok (PStr t)
    /\ In t treatments
    /\ contains (py_str (PStr t)) r = true
    /\ forall gm, generate_reply gm u (PDict d) = Ok (r, s').
Proof.
  intros Hu Hk Ht Hd.
  pose proof (update_as_map d u) as Hupd.
  set (d' := with_time u (with_treatment u d)) in *.
  assert (Hl : d' !! py "treatment" = Some (PStr t)).
  { unfold d'. rewrite with_time_treatment_key. unfold with_treatment.
    rewrite Ht, Hd. apply lookup_insert_eq. }
  assert (Hin : In t treatments) by (eapply detected_in_catalogue, Hd).
  assert (Hr : exists r, quick_rule_reply u (PDict d') = Ok r
                 /\ nonempty r = true /\ contains (py_str (PStr t)) r = true).
  { assert (Hv : default PNone (d' !! py "treatment") = PStr t)
      by (rewrite Hl; reflexivity).
    unfold quick_rule_reply. cbn [py_get bind]. rewrite Hk, Hv.
    cbn [truthy]. rewrite (treatments_nonempty t Hin). cbn [negb].
    destruct (truthy (default PNone (d' !! py "booking_time"))); cbn [negb];
      eexists; (split; [reflexivity|]);
      (split; [vm_compute; reflexivity | find_word]). }
  destruct Hr as (r & Hr & Hne & Hc).
  exists (PDict d'), r. split; [exact Hupd|].
  split; [cbn [py_get]; rewrite Hl; reflexivity|].
  split; [exact Hin|]. split; [exact Hc|].
  intros gm. apply booking_turn_quick; assumption.
Qed.

End Turns.

Lemma booking_turn_asks_treatment_witness :
  exists s',
    update_conversation_state reset_memory (py "我想預約") = Ok s'
    /\ field_unset s' (py "treatment")
    /\ forall gm,
         generate_reply gm (py "我想預約") reset_memory
         = Ok (ASK_TREATMENT, s').
Proof. apply booking_turn_asks_treatment; vm_compute; reflexivity. Defined.

Lemma booking_turn_uses_named_treatment_witness :
  exists s' r,
    update_conversation_state reset_memory (py "我想book深層清潔") = Ok s'
    /\ py_get s' (py "treatment") = Ok (PStr (py "深層清潔 facial"))
    /\ In (py "深層清潔 facial") treatments
    /\ contains (py_str (PStr (py "深層清潔 facial"))) r = true
    /\ forall gm,
         generate_reply gm (py "我想book深層清潔") reset_memory = Ok (r, s').
Proof. apply booking_turn_uses_named_treatment; vm_compute; reflexivity. Defined.

(* ================================================================== *)
(** * The further properties on sample inputs *)

Lemma update_records_time_witness :
  exists d' t,
    update_conversation_state chose_basic (py "  聽日下晝三點  ") = Ok (PDict d')
    /\ d' !! py "booking_time" = Some (PStr t)
    /\ t = take 50 (strip (py "  聽日下晝三點  "))
    /\ nonempty t = true
    /\ (List.length t <= 50)%nat
    /\ field_set (PDict d') (py "booking_time") (PStr t).
Proof. apply update_records_time; vm_compute; reflexivity. Defined.

Lemma update_idempotent_witness :
  update_conversation_state booked_basic (py "改做按摩，後日五點")
  = Ok booked_basic.
Proof. apply update_idempotent with (s := booked_basic). vm_compute. reflexivity. Defined.

Lemma update_keeps_full_state_witness :
  update_conversation_state booked_basic (py "我想做深層清潔，今晚得唔得")
  = Ok booked_basic.
Proof.
  apply (update_keeps_full_state booked_basic _ (PStr (py "basic facial"))
           (PStr (py "聽日三點"))); split; vm_compute; reflexivity.
Defined.

Lemma update_treatment_from_catalogue_witness :
  (<[py "treatment" := PStr (py "皮秒激光療程")]> ∅ : gmap pystr pyval)
    !! py "treatment" = (∅ : gmap pystr pyval) !! py "treatment"
  \/ (truthy (default PNone ((∅ : gmap pystr pyval) !! py "treatment")) = false
      /\ exists t, In t treatments
           /\ (<[py "treatment" := PStr (py "皮秒激光療程")]> ∅ : gmap pystr pyval)
                !! py "treatment" = Some (PStr t)).
Proof.
  apply (update_treatment_from_catalogue ∅ _ (py "我想做皮秒")).
  vm_compute. reflexivity.
Defined.

Lemma classifier_covers_responder_witness :
  _should_use_quick_path (py "你哋幾時開門") chose_basic = Ok true.
Proof.
  eapply classifier_covers_responder; [| |vm_compute; reflexivity].
  - vm_compute. reflexivity.
  - vm_compute. reflexivity.
Defined.

Lemma reply_is_rule_or_canned_witness :
  (In TECH_PROBLEM canned_replies
   \/ quick_rule_reply (py "你好") chose_basic = Ok TECH_PROBLEM)
  /\ (nonempty (py "你好") = false -> chose_basic = chose_basic)
  /\ (nonempty (py "你好") = true ->
      update_conversation_state chose_basic (py "你好") = Ok chose_basic).
Proof.
  apply (reply_is_rule_or_canned (fun _ => Failed ProviderError)).
  vm_compute. reflexivity.
Defined.

Lemma rules_answer_booking_and_price_witness :
  exists r s',
    update_conversation_state chose_basic (py "幾錢呀") = Ok s'
    /\ quick_rule_reply (py "幾錢呀") s' = Ok r
    /\ nonempty r = true
    /\ forall gm, generate_reply gm (py "幾錢呀") chose_basic = Ok (r, s').
Proof.
  apply rules_answer_booking_and_price.
  - vm_compute. reflexivity.
  - right. vm_compute. reflexivity.
Defined.

Lemma silent_model_reply_witness :
  generate_reply (fun _ => Responded (text_response (py "  "))) (py "你好")
    chose_basic
  = Ok (CANT_RESPOND, chose_basic).
Proof.
  eapply (silent_model_reply _ _ _ _ _ (text_response (py "  ")));
    vm_compute; reflexivity.
Defined.

Lemma location_question_asks_model_witness :
  exists s' p,
    update_conversation_state chose_basic (py "你哋喺邊度") = Ok s'
    /\ _should_use_quick_path (py "你哋喺邊度") s' = Ok false
    /\ quick_rule_reply (py "你哋喺邊度") s' = Ok LOCATION_REPLY
    /\ build_prompt (py "你哋喺邊度") s' = Ok p
    /\ generate_reply (fun _ => Responded (text_response (py "中環")))
         (py "你哋喺邊度") chose_basic
       = Ok (match Responded (text_response (py "中環")) with
             | Responded resp =>
               if nonempty (_extract_text_from_response resp)
               then LOCATION_REPLY else CANT_RESPOND
             | Failed _ => LOCATION_REPLY
             end, s').
Proof.
  apply (location_question_asks_model
           (fun _ => Responded (text_response (py "中環"))));
    vm_compute; reflexivity.
Defined.

Lemma long_span_is_kept_witness :
  sub_parens 0 (py "你好" ++ 40 :: repeat 97 41 ++ py ")再見")
  = sub_parens 0 (py "你好") ++ 40 :: repeat 97 41 ++ sub_parens 0 (py ")再見")
  /\ sanitize_tts_text (py "你好" ++ 40 :: repeat 97 41 ++ py ")再見")
     = after_parens (sub_parens 0 (py "你好") ++ 40 :: repeat 97 41
                     ++ sub_parens 0 (py ")再見")).
Proof. apply long_span_is_kept; vm_compute; (reflexivity || lia). Defined.

Lemma sanitize_twice_witness :
  sanitize_tts_text (sanitize_tts_text (py "你好(慢慢講) -- 再見/"))
  = sanitize_tts_text (py "你好(慢慢講) -- 再見/").
Proof. apply sanitize_twice. vm_compute. reflexivity. Defined.

(** Without the premise of X15 a second pass can find a new aside: here the
    dash leaves a span of exactly forty code points. *)
Lemma sanitize_twice_differs :
  sanitize_tts_text (sanitize_tts_text (40 :: repeat 97 40 ++ py "-)"))
  <> sanitize_tts_text (40 :: repeat 97 40 ++ py "-)").
Proof. vm_compute. discriminate. Qed.

Lemma tts_speaks_clean_bounded_text_witness :
  exists t rest,
    tts_to_mp3 (synthesize sample_world) (Some 5%Z) (py "你好(慢慢講)，再見")
    = Done (tts_result (synthesize sample_world t))
    /\ sanitize_tts_text (py "你好(慢慢講)，再見") = t ++ rest
    /\ (Z.of_nat (List.length t) <= 5)%Z
    /\ (forall c, In c t ->
          c <> ASTERISK /\ c <> DQUOTE /\ c <> SQUOTE /\ is_dash c = false)
    /\ slash_free t
    /\ ((1 <= 5)%Z -> nonempty t = true).
Proof.
  destruct (tts_speaks_clean_bounded_text (synthesize sample_world)
              (py "你好(慢慢講)，再見")) as [_ Hw].
  apply Hw; [vm_compute; reflexivity | lia].
Defined.

Lemma tts_file_serves_answer_names_witness :
  tts_file (fun _ => true) (mp3_name sample_world)
  = SendFile (mp3_name sample_world).
Proof.
  destruct (tts_file_serves_answer_names (fun _ => true)) as [Hw _].
  apply Hw. reflexivity.
Defined.

Lemma api_voice_never_answers_witness :
  exists e,
    api_voice sample_world sample_request
    = ServerError e (current_state_of sample_request)
    /\ (save_upload sample_world = Done tt ->
        convert_to_wav (ffmpeg_on_path sample_world) (ffmpeg sample_world)
        = Done tt ->
        e = ValueError).
Proof.
  destruct (api_voice_never_answers sample_world sample_request) as (_ & _ & Hw).
  apply Hw. reflexivity.
Defined.

Lemma answer_turn_on_dict_witness :
  exists reply s' tts_ok tts_err,
    generate_reply (gemini sample_world)
      (stt_from_wav (recognize sample_world)) chose_basic = Ok (reply, s')
    /\ nonempty reply = true
    /\ update_conversation_state chose_basic
         (stt_from_wav (recognize sample_world)) = Ok s'
    /\ tts_to_mp3 (synthesize sample_world) (Some 180%Z) reply
       = Done (tts_ok, tts_err)
    /\ answer_turn sample_world chose_basic
       = Done (Answer tts_ok tts_err (stt_from_wav (recognize sample_world))
                 reply
                 (if tts_ok then py "/tts/" ++ mp3_name sample_world else [])
                 s' (timing_text sample_world)).
Proof.
  destruct (answer_turn_on_dict sample_world
              (<[py "treatment" := PStr (py "basic facial")]> ∅) 180
              eq_refl) as [_ Hw].
  apply Hw. vm_compute. reflexivity.
Defined.

Lemma answer_turn_raises_off_dicts_witness :
  answer_turn sample_world (PList []) = Threw (CoreRaised AttributeError).
Proof.
  apply answer_turn_raises_off_dicts; [discriminate | vm_compute; reflexivity].
Defined.

Lemma update_touches_two_keys_witness :
  exists d',
    update_conversation_state
      (PDict (<[py "name" := PStr (py "陳小姐")]> ∅)) (py "我想做按摩，聽日三點")
    = Ok (PDict d')
    /\ d' !! py "name"
       = (<[py "name" := PStr (py "陳小姐")]> ∅ : gmap pystr pyval) !! py "name".
Proof.
  destruct (update_touches_two_keys (<[py "name" := PStr (py "陳小姐")]> ∅)
              (py "我想做按摩，聽日三點")) as (d' & Hu & Hk & _).
  exists d'. split; [exact Hu|]. apply Hk; vm_compute; discriminate.
Defined.

Lemma memory_context_reports_fields_witness :
  exists c,
    build_memory_context
      (PDict (<[py "treatment" := PStr (py "basic facial")]> ∅)) = Ok c
    /\ contains
         (py_str (default PNone
            ((<[py "treatment" := PStr (py "basic facial")]> ∅
              : gmap pystr pyval) !! py "treatment"))) c = true.
Proof.
  destruct (memory_context_reports_fields
              (<[py "treatment" := PStr (py "basic facial")]> ∅))
    as (c & Hc & _ & Ht & _).
  exists c. split; [exact Hc|]. apply Ht. vm_compute. reflexivity.
Defined.

(* ================================================================== *)
(** * The code of the consistency filter after the split *)

Lemma contains_strip (kw s : pystr) :
  contains kw (strip s) = true -> contains kw s = true.
Proof.
  intros Hc. unfold strip in Hc.
  destruct (lstrip_suffix s) as [a Ha].
  destruct (rstrip_prefix (lstrip s)) as [w Hw].
  rewrite Ha, Hw. apply contains_app_r, contains_app_l, Hc.
Qed.

Lemma any_in_strip (kws : list pystr) (s : pystr) :
  any_in kws s = false -> any_in kws (strip s) = false.
Proof.
  intros Hs. destruct (any_in kws (strip s)) eqn:E; [|reflexivity].
  apply existsb_exists in E as (k & Hin & Hc).
  rewrite (any_in_intro kws k s Hin (contains_strip _ _ Hc)) in Hs.
  discriminate.
Qed.

Lemma skip_sentence_false (ht hb : bool) (s : pystr) :
  skip_sentence ht hb s = false ->
  (ht = true -> any_in reask_treatment s = false)
  /\ (hb = true -> any_in reask_time s = false).
Proof.
  unfold skip_sentence.
  destruct ht, hb, (any_in reask_treatment s), (any_in reask_time s);
    cbn [andb]; intros Hs; try discriminate Hs; split; intros; congruence.
Qed.

(** X23. The loop over the sentences keeps them in their order, stripped:
    exactly those that are not blank and hold no marker phrase of a known
    field. No sentence it keeps is empty or holds such a phrase. *)
Theorem sentence_loop_drops_reasks (ht hb : bool) (sentences : list pystr) :
  filter_sentences ht hb sentences
  = map strip
      (List.filter (fun s => nonempty (strip s) && negb (skip_sentence ht hb s))
         sentences)
  /\ forall k, In k (filter_sentences ht hb sentences) ->
       nonempty k = true
       /\ (exists s, In s sentences /\ k = strip s)
       /\ (ht = true -> any_in reask_treatment k = false)
       /\ (hb = true -> any_in reask_time k = false).
Proof.
  split.
  - induction sentences as [|s rest IH]; [reflexivity|].
    cbn [filter_sentences List.filter].
    destruct (nonempty (strip s)); cbn [negb andb]; [|exact IH].
    destruct (skip_sentence ht hb s); cbn [negb map]; [exact IH|].
    rewrite IH. reflexivity.
  - induction sentences as [|s rest IH]; cbn [filter_sentences]; [intros k []|].
    assert (Hrest : forall k, In k (filter_sentences ht hb rest) ->
              nonempty k = true
              /\ (exists s0, In s0 (s :: rest) /\ k = strip s0)
              /\ (ht = true -> any_in reask_treatment k = false)
              /\ (hb = true -> any_in reask_time k = false)).
    { intros k Hk. destruct (IH k Hk) as (Hn & (s0 & Hs0 & Heq) & Ht & Hb).
      split; [exact Hn|]. split; [exists s0; split; [right; exact Hs0 | exact Heq]|].
      split; assumption. }
    destruct (nonempty (strip s)) eqn:En; cbn [negb]; [|exact Hrest].
    destruct (skip_sentence ht hb s) eqn:Es; [exact Hrest|].
    intros k [<-|Hk]; [|apply Hrest, Hk].
    destruct (skip_sentence_false _ _ _ Es) as [Ht Hb].
    split; [exact En|]. split; [exists s; split; [left; reflexivity | reflexivity]|].
    split; intros Hf; apply any_in_strip; auto.
Qed.

(** X24. When every sentence is blank or holds a marker phrase of a known
    field, the code after the split returns the empty string. *)
Theorem all_sentences_dropped (sentences : list pystr) (d : gmap pystr pyval) :
  let ht := is_not_None (default PNone (d !! py "treatment")) in
  let hb := is_not_None (default PNone (d !! py "booking_time")) in
  (forall s, In s sentences ->
     nonempty (strip s) = false \/ skip_sentence ht hb s = true) ->
  after_split sentences (PDict d) = Ok [].
Proof.
  intros ht hb Hall. unfold after_split. cbn [py_get bind]. fold ht hb.
  assert (Hnil : filter_sentences ht hb sentences = []).
  { induction sentences as [|s rest IH]; [reflexivity|].
    cbn [filter_sentences].
    destruct (Hall s (or_introl eq_refl)) as [-> | Hs]; cbn [negb].
    - apply IH. intros s0 Hs0. apply Hall. right. exact Hs0.
    - destruct (nonempty (strip s)); cbn [negb]; rewrite ?Hs;
        apply IH; intros s0 Hs0; apply Hall; right; exact Hs0. }
  rewrite Hnil. reflexivity.
Qed.

Lemma all_sentences_dropped_witness :
  after_split [py "你想做咩療程？"; py "  "]
    (PDict (<[py "treatment" := PStr (py "basic facial")]> ∅))
  = Ok [].
Proof.
  apply all_sentences_dropped. cbn [In].
  intros s [<-|[<-|[]]]; [right | left]; vm_compute; reflexivity.
Defined.

Lemma sentence_loop_drops_reasks_witness :
  nonempty (py "我哋十一點開門。") = true
  /\ (exists s,
        In s [py "你想做咩療程？"; py " 我哋十一點開門。 "]
        /\ py "我哋十一點開門。" = strip s)
  /\ (true = true -> any_in reask_treatment (py "我哋十一點開門。") = false)
  /\ (false = true -> any_in reask_time (py "我哋十一點開門。") = false).
Proof.
  destruct (sentence_loop_drops_reasks true false
              [py "你想做咩療程？"; py " 我哋十一點開門。 "]) as [_ Hw].
  apply Hw. vm_compute. left. reflexivity.
Defined.

(* ================================================================== *)
(** * The result of the filter in the orchestrator and in the handler *)

Section FilterResult.
Context `{PyBuiltins}.


End FilterResult.



(** C5 as stated fails: 幾點 is a booking signal of the classifier and no
    booking keyword of the responder, which has no rule for this utterance
    and returns the empty string. *)
Lemma time_word_gets_no_rule_reply :
  any_in booking_signals (py "幾點得閒") = true
  /\ field_unset reset_memory (py "treatment")
  /\ field_unset reset_memory (py "booking_time")
  /\ _should_use_quick_path (py "幾點得閒") reset_memory = Ok true
  /\ quick_rule_reply (py "幾點得閒") reset_memory = Ok [].
Proof.
  split; [vm_compute; reflexivity|].
  split; [exists PNone; split; vm_compute; reflexivity|].
  split; [exists PNone; split; vm_compute; reflexivity|].
  split; vm_compute; reflexivity.
Qed.
